(** * honogram: the chat hub of [src/server.ts] and the client paths that feed it

    The development embeds the WebSocket handlers of [HonoLanChatServer]
    (join, chat message, file transfer, disconnect and the three broadcast
    helpers) as state-passing functions over an explicit hub state, together
    with the two client-side functions of the CLI client that decide what
    reaches the server ([promptUsername] and [sendFile]).

    Conventions.
    - A JS [Map] is an association list in insertion order with unique keys.
    - A [Buffer] is a [list byte].  A JS string is a [string] that holds the
      UTF-8 bytes of its text (a lone surrogate in its three-byte form).
    - [nanoid()] and [new Date().toISOString()] are inputs of the handlers.
    - What [ws.send] is called with is recorded, in call order, in an outbox.
    - Console logging ([logToConsole]) has no effect on the hub and is left out.
    - Paths are those of a POSIX host, and paths that differ once they are
      normalised name different files.  Whether [fs.writeFileSync] lets a
      path be written is the host's matter ([writable]); [chatlog.txt],
      which the server keeps in its working directory, is taken to be
      writable. *)

From Stdlib Require Import NArith ZArith Ascii String DecimalString.
From Stdlib.Strings Require Import Byte.
From stdpp Require Import gmap strings list.

Open Scope string_scope.
Open Scope list_scope.

(** ** Node's [Buffer] and its base64 codec *)

Module Buffer.

(** The 64 characters of the standard alphabet, by sextet value. *)
Definition alphabet : string :=
  "ABCDEFGHIJKLMNOPQRSTUVWXYZabcdefghijklmnopqrstuvwxyz0123456789+/".

Definition sextet_char (n : N) : ascii :=
  nth (N.to_nat n) (list_ascii_of_string alphabet) "="%char.

(** Value of a character, [None] for a character outside the alphabet.
    The decoder also takes the URL-safe [-] and [_]. *)
Definition unbase64 (c : ascii) : option N :=
  let n := N_of_ascii c in
  if (65 <=? n)%N && (n <=? 90)%N then Some (n - 65)%N
  else if (97 <=? n)%N && (n <=? 122)%N then Some (n - 71)%N
  else if (48 <=? n)%N && (n <=? 57)%N then Some (n + 4)%N
  else if (n =? 43)%N || (n =? 45)%N then Some 62%N
  else if (n =? 47)%N || (n =? 95)%N then Some 63%N
  else None.

Definition byte_of_N (n : N) : byte :=
  match Byte.of_N (n mod 256) with
  | Some b => b
  | None => x00
  end.

(** Three bytes give four sextets. *)
Definition enc0 (a : N) : N := N.shiftr a 2.
Definition enc1 (a b : N) : N := N.lor (N.shiftl (N.land a 3) 4) (N.shiftr b 4).
Definition enc2 (b c : N) : N := N.lor (N.shiftl (N.land b 15) 2) (N.shiftr c 6).
Definition enc3 (c : N) : N := N.land c 63.

(** Four sextets give three bytes. *)
Definition dec0 (s0 s1 : N) : N := N.lor (N.shiftl s0 2) (N.shiftr s1 4).
Definition dec1 (s1 s2 : N) : N := N.lor (N.shiftl (N.land s1 15) 4) (N.shiftr s2 2).
Definition dec2 (s2 s3 : N) : N := N.lor (N.shiftl (N.land s2 3) 6) s3.

(** [buf.toString("base64")]: groups of three bytes, the last group padded
    with [=]. *)
Fixpoint toString_base64 (buf : list byte) : string :=
  match buf with
  | [] => ""
  | [a] =>
      let x := Byte.to_N a in
      String (sextet_char (enc0 x)) (String (sextet_char (enc1 x 0)) "==")
  | [a; b] =>
      let x := Byte.to_N a in
      let y := Byte.to_N b in
      String (sextet_char (enc0 x)) (String (sextet_char (enc1 x y))
        (String (sextet_char (enc2 y 0)) "="))
  | a :: b :: c :: rest =>
      let x := Byte.to_N a in
      let y := Byte.to_N b in
      let z := Byte.to_N c in
      String (sextet_char (enc0 x)) (String (sextet_char (enc1 x y))
        (String (sextet_char (enc2 y z)) (String (sextet_char (enc3 z))
          (toString_base64 rest))))
  end.

(** The decoder goes through the UTF-16 code units of its argument and
    looks at the low byte of each unit only.  [low_bytes] reads these low
    bytes off the UTF-8 form: a character below U+0080 is its own byte; of
    a two-byte or three-byte form the low eight bits of the code point; of
    a four-byte form the low bytes of the two surrogates.  A byte that
    starts no well-formed sequence reads as U+FFFD. *)
Definition continuation (c : ascii) : option N :=
  let n := N_of_ascii c in
  if (128 <=? n)%N && (n <? 192)%N then Some (n - 128)%N else None.

Definition two_bytes (b0 : N) : bool := (194 <=? b0)%N && (b0 <? 224)%N.

Definition three_bytes (b0 x1 : N) : bool :=
  (224 <=? b0)%N && (b0 <? 240)%N && ((224 <? b0)%N || (32 <=? x1)%N).

Definition four_bytes (b0 x1 : N) : bool :=
  (240 <=? b0)%N && (b0 <? 245)%N
  && ((240 <? b0)%N || (16 <=? x1)%N) && ((b0 <? 244)%N || (x1 <? 16)%N).

(** The code point of a four-byte form, less 0x10000. *)
Definition astral (b0 x1 x2 x3 : N) : N :=
  ((b0 mod 8) * 262144 + x1 * 4096 + x2 * 64 + x3 - 65536)%N.

Definition replacement : ascii := ascii_of_N 253.

Fixpoint low_bytes (s : string) : list ascii :=
  match s with
  | EmptyString => []
  | String c0 r0 =>
      let b0 := N_of_ascii c0 in
      if (b0 <? 128)%N then c0 :: low_bytes r0
      else
        match r0 with
        | String c1 r1 =>
            match continuation c1 with
            | Some x1 =>
                if two_bytes b0
                then ascii_of_N (((b0 mod 4) * 64 + x1) mod 256) :: low_bytes r1
                else
                  match r1 with
                  | String c2 r2 =>
                      match continuation c2 with
                      | Some x2 =>
                          if three_bytes b0 x1
                          then ascii_of_N (((x1 mod 4) * 64 + x2) mod 256) :: low_bytes r2
                          else
                            match r2 with
                            | String c3 r3 =>
                                match continuation c3 with
                                | Some x3 =>
                                    if four_bytes b0 x1
                                    then
                                      let v := astral b0 x1 x2 x3 in
                                      ascii_of_N ((v / 1024) mod 256)
                                        :: ascii_of_N (v mod 256) :: low_bytes r3
                                    else replacement :: low_bytes r0
                                | None => replacement :: low_bytes r0
                                end
                            | EmptyString => replacement :: low_bytes r0
                            end
                      | None => replacement :: low_bytes r0
                      end
                  | EmptyString => replacement :: low_bytes r0
                  end
            | None => replacement :: low_bytes r0
            end
        | EmptyString => [replacement]
        end
  end.

(** The decoder never rejects its input: a character outside the alphabet
    is skipped, and decoding stops at the first [=]. *)
Fixpoint sextets_of (l : list ascii) : list N :=
  match l with
  | [] => []
  | c :: l' =>
      if Ascii.eqb c "="%char then []
      else match unbase64 c with
           | Some n => n :: sextets_of l'
           | None => sextets_of l'
           end
  end.

Definition sextets (s : string) : list N := sextets_of (low_bytes s).

(** A trailing group of two sextets gives one byte, of three sextets two
    bytes; a single trailing sextet gives nothing. *)
Fixpoint unpack (l : list N) : list byte :=
  match l with
  | s0 :: s1 :: s2 :: s3 :: rest =>
      byte_of_N (dec0 s0 s1) :: byte_of_N (dec1 s1 s2) :: byte_of_N (dec2 s2 s3)
        :: unpack rest
  | [s0; s1; s2] => [byte_of_N (dec0 s0 s1); byte_of_N (dec1 s1 s2)]
  | [s0; s1] => [byte_of_N (dec0 s0 s1)]
  | _ => []
  end.

(** [Buffer.from(s, "base64")]. *)
Definition from_base64 (s : string) : list byte := unpack (sextets s).

End Buffer.

(** ** JS [Map]: keys in insertion order, one entry per key *)

Definition Map (V : Type) : Type := list (string * V).

Fixpoint Map_get {V} (k : string) (m : Map V) : option V :=
  match m with
  | [] => None
  | (k', v) :: m' => if String.eqb k' k then Some v else Map_get k m'
  end.

(** [set] on a key already present keeps its position. *)
Fixpoint Map_set {V} (k : string) (v : V) (m : Map V) : Map V :=
  match m with
  | [] => [(k, v)]
  | (k', v') :: m' =>
      if String.eqb k' k then (k, v) :: m' else (k', v') :: Map_set k v m'
  end.

Definition Map_delete {V} (k : string) (m : Map V) : Map V :=
  List.filter (fun e => negb (String.eqb (fst e) k)) m.

Definition Map_values {V} (m : Map V) : list V := map snd m.

Definition Map_keys {V} (m : Map V) : list string := map fst m.

Definition Map_forEach {V S} (f : V -> string -> S -> S) (m : Map V) (s : S) : S :=
  fold_left (fun acc e => f (snd e) (fst e) acc) m s.

(** ** Data model of [server.ts] *)

(** A socket is known by its handle; its [readyState] lives in the hub's
    view of the transport. *)
Definition WebSocket : Type := nat.

Inductive ReadyState : Type := CONNECTING | OPEN | CLOSING | CLOSED.

Record User : Type := mkUser {
  u_id : string;
  u_username : string;
  u_ws : WebSocket
}.

Inductive MessageType : Type := TMessage | TFile | TSystem.

Record ChatMessage : Type := mkChatMessage {
  m_id : string;
  m_username : string;
  m_message : string;
  m_timestamp : string;
  m_type : MessageType
}.

Record FileTransfer : Type := mkFileTransfer {
  filename : string;
  fileData : string;
  fileSize : Z;
  sender : string
}.

(** The objects the server passes to [JSON.stringify] and sends. *)
Inductive ServerMsg : Type :=
  | Joined (chatHistory : list ChatMessage) (userNames : list string)
  | Message (data : ChatMessage)
  | UserList (data : list string)
  | FileReceived (name data from : string) (size : Z) (downloadUrl : string).

(** The parsed frames a client sends, by their [type] field. *)
Inductive ClientMsg : Type :=
  | Join (username : string)
  | Chat (message : string)
  | File (data : FileTransfer)
  | Unknown (type : string).

(** The fields of [HonoLanChatServer] that the handlers touch ([users],
    [chatLog]) and what they act on: the files on disk, the ready state of
    every socket, and the frames handed to [ws.send]. *)
Record Hub : Type := mkHub {
  users : Map User;
  chatLog : list ChatMessage;
  disk : gmap string (list byte);
  sockets : gmap WebSocket ReadyState;
  outbox : list (WebSocket * ServerMsg)
}.

Definition set_users (us : Map User) (h : Hub) : Hub :=
  mkHub us (chatLog h) (disk h) (sockets h) (outbox h).
Definition set_chatLog (l : list ChatMessage) (h : Hub) : Hub :=
  mkHub (users h) l (disk h) (sockets h) (outbox h).
Definition set_disk (d : gmap string (list byte)) (h : Hub) : Hub :=
  mkHub (users h) (chatLog h) d (sockets h) (outbox h).
Definition set_sockets (s : gmap WebSocket ReadyState) (h : Hub) : Hub :=
  mkHub (users h) (chatLog h) (disk h) s (outbox h).
Definition set_outbox (o : list (WebSocket * ServerMsg)) (h : Hub) : Hub :=
  mkHub (users h) (chatLog h) (disk h) (sockets h) o.

(** The fields of a server that has just been constructed: nobody
    connected, nothing logged, no socket.  No file is listed here: what the
    disk holds when the server starts ([public/index.html], which the
    constructor writes, and what earlier runs left) comes with the start
    world in the statements that read files. *)
Definition new_hub : Hub := mkHub [] [] ∅ ∅ [].

(** ** What the platform supplies

    [toLocaleString] is [new Date(ts).toLocaleString()], which depends on the
    locale of the host.  [double] is the type of JS numbers, with the
    functions of [Math] and [Number] that [formatFileSize] calls;
    [array_index i] is the index that [sizes[i]] reads, if [i] is one.
    [writable path] tells whether [fs.writeFileSync(path, _)] returns; it
    throws otherwise.  [setupDirectories] has made [received] a directory,
    and a directory cannot be written as a file. *)
Class Runtime : Type := {
  toLocaleString : string -> string;
  double : Type;
  of_Z : Z -> double;
  Math_log : double -> double;
  Math_floor : double -> double;
  Math_pow : double -> double -> double;
  divide : double -> double -> double;
  toFixed : double -> nat -> string;
  parseFloat : string -> double;
  Number_toString : double -> string;
  array_index : double -> option nat;
  writable : string -> bool;
  received_is_directory : writable "received" = false
}.

Definition LF : string := String "010"%char "".

(** [fs.writeFileSync(path, data)] when it returns. *)
Definition writeFileSync (path : string) (data : list byte) (h : Hub) : Hub :=
  set_disk (<[path := data]> (disk h)) h.

(** ** Node's [path.join]

    The segments of a path, those between the separators. *)
Fixpoint segments (p : string) : list string :=
  match p with
  | EmptyString => [EmptyString]
  | String c p' =>
      if Ascii.eqb c "/"%char then EmptyString :: segments p'
      else match segments p' with
           | seg :: segs => String c seg :: segs
           | [] => [String c EmptyString]
           end
  end.

(** One segment more for [normalizeString]; [res] holds the segments kept so
    far, the last one first.  An empty segment and [.] are dropped, [..]
    takes the last segment away, or stays when there is none to take and the
    path is relative. *)
Definition normalize_step (allowAboveRoot : bool) (res : list string) (seg : string)
    : list string :=
  if String.eqb seg "" || String.eqb seg "." then res
  else if String.eqb seg ".." then
    match res with
    | last :: rest =>
        if String.eqb last ".." then (if allowAboveRoot then seg :: res else res)
        else rest
    | [] => if allowAboveRoot then [seg] else []
    end
  else seg :: res.

Definition normalizeString (path : string) (allowAboveRoot : bool) : string :=
  String.concat "/" (rev (fold_left (normalize_step allowAboveRoot) (segments path) [])).

Definition isAbsolute (path : string) : bool :=
  match path with
  | String c _ => Ascii.eqb c "/"%char
  | EmptyString => false
  end.

Fixpoint trailingSeparator (path : string) : bool :=
  match path with
  | EmptyString => false
  | String c EmptyString => Ascii.eqb c "/"%char
  | String _ path' => trailingSeparator path'
  end.

(** [path.normalize]. *)
Definition path_normalize (path : string) : string :=
  if String.eqb path "" then "."
  else
    let res := normalizeString path (negb (isAbsolute path)) in
    if String.eqb res "" then
      if isAbsolute path then "/" else if trailingSeparator path then "./" else "."
    else
      (if isAbsolute path then "/" else "") +:+ res +:+
      (if trailingSeparator path then "/" else "").

(** [path.join(dir, name)]: the arguments that are not empty, put together
    with a separator and normalised. *)
Definition path_join (dir name : string) : string :=
  match dir, name with
  | EmptyString, EmptyString => "."
  | _, EmptyString => path_normalize dir
  | EmptyString, _ => path_normalize name
  | _, _ => path_normalize (dir +:+ "/" +:+ name)
  end.

(** [ws.readyState], [CLOSED] for a socket the transport no longer knows. *)
Definition readyState (h : Hub) (ws : WebSocket) : ReadyState :=
  default CLOSED (sockets h !! ws).

Definition is_open (h : Hub) (ws : WebSocket) : bool :=
  match readyState h ws with
  | OPEN => true
  | _ => false
  end.

(** [ws.send(JSON.stringify(m))]. *)
Definition ws_send (ws : WebSocket) (m : ServerMsg) (h : Hub) : Hub :=
  set_outbox (outbox h ++ [(ws, m)]) h.

(** ** The handlers of [HonoLanChatServer] *)

Definition sizes : list string := ["B"; "KB"; "MB"; "GB"].

(** [sizes[i]] as it is printed: [undefined] where [i] is no index of the
    array. *)
Definition sizes_at `{Runtime} (i : double) : string :=
  match array_index i with
  | Some n => nth n sizes "undefined"
  | None => "undefined"
  end.

(** The size is a whole number of bytes, which is what both clients send. *)
Definition formatFileSize `{Runtime} (bytes : Z) : string :=
  if (bytes =? 0)%Z then "0 B"
  else
    let k := of_Z 1024 in
    let i := Math_floor (divide (Math_log (of_Z bytes)) (Math_log k)) in
    Number_toString (parseFloat (toFixed (divide (of_Z bytes) (Math_pow k i)) 2))
      +:+ " " +:+ sizes_at i.

Definition saveChatLog `{Runtime} (h : Hub) : Hub :=
  let logContent :=
    String.concat LF
      (map (fun msg =>
              "[" +:+ toLocaleString (m_timestamp msg) +:+ "] " +:+
              m_username msg +:+ ": " +:+ m_message msg)
           (chatLog h)) in
  writeFileSync "chatlog.txt" (list_byte_of_string logContent) h.

Definition broadcast (data : ServerMsg) (h : Hub) : Hub :=
  Map_forEach
    (fun user _ acc =>
       if is_open acc (u_ws user) then ws_send (u_ws user) data acc else acc)
    (users h) h.

Definition broadcastToOthers (excludeUserId : string) (data : ServerMsg) (h : Hub) : Hub :=
  Map_forEach
    (fun user userId acc =>
       if negb (String.eqb userId excludeUserId) && is_open acc (u_ws user)
       then ws_send (u_ws user) data acc else acc)
    (users h) h.

Definition broadcastMessage `{Runtime} (message : ChatMessage) (h : Hub) : Hub :=
  let h1 := set_chatLog (chatLog h ++ [message]) h in
  let h2 := broadcast (Message message) h1 in
  saveChatLog h2.

Definition broadcastUserList (h : Hub) : Hub :=
  let userList := map u_username (Map_values (users h)) in
  broadcast (UserList userList) h.

Definition handleUserJoin `{Runtime} (ws : WebSocket) (userId username : string)
    (mid now : string) (h : Hub) : Hub :=
  let user := mkUser userId username ws in
  let h1 := set_users (Map_set userId user (users h)) h in
  let joinMessage :=
    mkChatMessage mid "System" (username +:+ " joined the chat") now TSystem in
  let h2 := broadcastMessage joinMessage h1 in
  let h3 :=
    ws_send ws (Joined (chatLog h2) (map u_username (Map_values (users h2)))) h2 in
  broadcastUserList h3.

Definition handleChatMessage `{Runtime} (userId messageText : string)
    (mid now : string) (h : Hub) : Hub :=
  match Map_get userId (users h) with
  | None => h
  | Some user =>
      let chatMessage :=
        mkChatMessage mid (u_username user) messageText now TMessage in
      broadcastMessage chatMessage h
  end.

(** What the handler does when its write returns.  The write comes before
    anything else is done; when it throws, the handler is left at once, see
    [on_message]. *)
Definition handleFileTransfer `{Runtime} (userId : string) (fd : FileTransfer)
    (mid now : string) (h : Hub) : Hub :=
  match Map_get userId (users h) with
  | None => h
  | Some user =>
      let filePath := path_join "received" (filename fd) in
      let buffer := Buffer.from_base64 (fileData fd) in
      let h1 := writeFileSync filePath buffer h in
      let fileMessage :=
        mkChatMessage mid (u_username user)
          ("📎 Shared file: " +:+ filename fd +:+ " (" +:+
           formatFileSize (fileSize fd) +:+ ")")
          now TFile in
      let h2 := broadcastMessage fileMessage h1 in
      broadcastToOthers userId
        (FileReceived (filename fd) (fileData fd) (u_username user) (fileSize fd)
           ("/api/download/" +:+ filename fd))
        h2
  end.

Definition handleUserDisconnect `{Runtime} (userId : string) (mid now : string)
    (h : Hub) : Hub :=
  match Map_get userId (users h) with
  | Some user =>
      let leaveMessage :=
        mkChatMessage mid "System" (u_username user +:+ " left the chat") now TSystem in
      let h1 := broadcastMessage leaveMessage h in
      let h2 := set_users (Map_delete userId (users h1)) h1 in
      broadcastUserList h2
  | None => h
  end.

Definition handleWebSocketMessage `{Runtime} (ws : WebSocket) (userId : string)
    (message : ClientMsg) (mid now : string) (h : Hub) : Hub :=
  match message with
  | Join username => handleUserJoin ws userId username mid now h
  | Chat text => handleChatMessage userId text mid now h
  | File data => handleFileTransfer userId data mid now h
  | Unknown _ => h
  end.

(** Does handling the frame throw?  Only the write of [handleFileTransfer]
    can, for a sender who is registered. *)
Definition throws `{Runtime} (userId : string) (message : ClientMsg) (h : Hub) : bool :=
  match message with
  | File data =>
      match Map_get userId (users h) with
      | Some _ => negb (writable (path_join "received" (filename data)))
      | None => false
      end
  | _ => false
  end.

(** [ws.on("message")]: the handling is wrapped in [try]/[catch].  A frame
    that [JSON.parse] rejects ([None]) is dropped, and so is a frame whose
    handling throws, which happens before the handler has changed anything. *)
Definition on_message `{Runtime} (ws : WebSocket) (userId : string)
    (data : option ClientMsg) (mid now : string) (h : Hub) : Hub :=
  match data with
  | Some message =>
      if throws userId message h then h
      else handleWebSocketMessage ws userId message mid now h
  | None => h
  end.

(** [GET /api/users] and the [users] field of the [joined] frame. *)
Definition userNames (h : Hub) : list string :=
  map u_username (Map_values (users h)).

(** ** The CLI client ([HonoLanChatCLI]): what it puts on the wire *)

(** [String.prototype.trim] strips white space and line terminators from
    both ends: U+0009 to U+000D and U+0020, which are one byte each, U+00A0,
    which is two bytes, and U+1680, U+2000 to U+200A, U+2028, U+2029, U+202F,
    U+205F, U+3000 and U+FEFF, which are three. *)
Definition is_space (c : ascii) : bool :=
  let n := nat_of_ascii c in
  (n =? 32)%nat || ((9 <=? n)%nat && (n <=? 13)%nat).

Definition is_space2 (c0 c1 : ascii) : bool :=
  (nat_of_ascii c0 =? 194)%nat && (nat_of_ascii c1 =? 160)%nat.

Definition is_space3 (c0 c1 c2 : ascii) : bool :=
  let b0 := nat_of_ascii c0 in
  let b1 := nat_of_ascii c1 in
  let b2 := nat_of_ascii c2 in
  ((b0 =? 225) && (b1 =? 154) && (b2 =? 128))%nat
  || ((b0 =? 226) && (b1 =? 128)
      && (((128 <=? b2) && (b2 <=? 138)) || (b2 =? 168) || (b2 =? 169) || (b2 =? 175)))%nat
  || ((b0 =? 226) && (b1 =? 129) && (b2 =? 159))%nat
  || ((b0 =? 227) && (b1 =? 128) && (b2 =? 128))%nat
  || ((b0 =? 239) && (b1 =? 187) && (b2 =? 191))%nat.

(** Does the text start with a white-space character? *)
Definition starts_with_space (s : string) : bool :=
  match s with
  | EmptyString => false
  | String c0 r0 =>
      is_space c0
      || match r0 with
         | EmptyString => false
         | String c1 r1 =>
             is_space2 c0 c1
             || match r1 with
                | EmptyString => false
                | String c2 _ => is_space3 c0 c1 c2
                end
         end
  end.

Fixpoint trimStart (s : string) : string :=
  match s with
  | EmptyString => EmptyString
  | String c0 r0 =>
      if is_space c0 then trimStart r0
      else
        match r0 with
        | EmptyString => s
        | String c1 r1 =>
            if is_space2 c0 c1 then trimStart r1
            else
              match r1 with
              | EmptyString => s
              | String c2 r2 => if is_space3 c0 c1 c2 then trimStart r2 else s
              end
        end
  end.

(** The text up to where nothing but white space follows. *)
Fixpoint trimEnd (s : string) : string :=
  match s with
  | EmptyString => EmptyString
  | String c s' =>
      match trimStart s with
      | EmptyString => EmptyString
      | _ => String c (trimEnd s')
      end
  end.

Definition trim (s : string) : string := trimEnd (trimStart s).

(** The answer to "Enter your username: ": the frame sent, or [None] when
    the client prints "Username cannot be empty" and asks again. *)
Definition promptUsername (answer : string) : option ClientMsg :=
  match trim answer with
  | EmptyString => None
  | username => Some (Join username)
  end.

Definition has_slash (p : string) : bool :=
  existsb (Ascii.eqb "/"%char) (list_ascii_of_string p).

(** [path.basename] of the path of a file. *)
Fixpoint basename (p : string) : string :=
  match p with
  | EmptyString => EmptyString
  | String c p' =>
      if has_slash p' then basename p'
      else if Ascii.eqb c "/"%char then p' else p
  end.

(** [/send <filepath>]: [None] when the file does not exist on the client's
    disk ("File not found"). *)
Definition sendFile (clientDisk : gmap string (list byte)) (filepath username : string)
    : option ClientMsg :=
  match clientDisk !! filepath with
  | None => None
  | Some content =>
      Some (File (mkFileTransfer (basename filepath)
                    (Buffer.toString_base64 content)
                    (Z.of_nat (length content))
                    username))
  end.

(** ** The server as the transport drives it

    [wss.on("connection")] draws a fresh [userId] for the new socket and
    installs the [message] and [close] callbacks, which keep [userId] and
    [ws] in their closure: [conns] is the set of these closures.  The worlds
    the server can be in are those that [run] reaches from [new_world]. *)
Record World : Type := mkWorld {
  hub : Hub;
  conns : Map WebSocket
}.

Inductive Event : Type :=
  | Connection (userId : string) (ws : WebSocket)
  | Frame (userId : string) (data : option ClientMsg) (mid now : string)
  | CloseEvent (userId : string) (mid now : string)
  | Transport (ws : WebSocket) (st : ReadyState).

Definition set_readyState (ws : WebSocket) (st : ReadyState) (h : Hub) : Hub :=
  set_sockets (<[ws := st]> (sockets h)) h.

(** [None] for an event the transport cannot raise: a connection whose id or
    socket is already in use, a frame or a close on a connection that is not
    there. *)
Definition fire `{Runtime} (e : Event) (w : World) : option World :=
  match e with
  | Connection userId ws =>
      match Map_get userId (conns w) with
      | Some _ => None
      | None =>
          if existsb (Nat.eqb ws) (Map_values (conns w)) then None
          else Some (mkWorld (set_readyState ws OPEN (hub w))
                       (Map_set userId ws (conns w)))
      end
  | Frame userId data mid now =>
      match Map_get userId (conns w) with
      | Some ws => Some (mkWorld (on_message ws userId data mid now (hub w)) (conns w))
      | None => None
      end
  | CloseEvent userId mid now =>
      match Map_get userId (conns w) with
      | Some ws =>
          Some (mkWorld
                  (handleUserDisconnect userId mid now (set_readyState ws CLOSED (hub w)))
                  (Map_delete userId (conns w)))
      | None => None
      end
  | Transport ws st => Some (mkWorld (set_readyState ws st (hub w)) (conns w))
  end.

Fixpoint run `{Runtime} (es : list Event) (w : World) : option World :=
  match es with
  | [] => Some w
  | e :: es' =>
      match fire e w with
      | Some w' => run es' w'
      | None => None
      end
  end.

Definition new_world : World := mkWorld new_hub [].

(** [publish] called once per event of a list, in order. *)
Definition publish_all `{Runtime} (ms : list ChatMessage) (h : Hub) : Hub :=
  fold_left (fun acc m => broadcastMessage m acc) ms h.

(** The frames a fan-out hands to [ws.send]: one per entry of [users] that
    passes [keep] and whose socket is open, in iteration order. *)
Definition fanout (keep : string -> bool) (data : ServerMsg) (h : Hub)
    : list (WebSocket * ServerMsg) :=
  map (fun e => (u_ws (snd e), data))
      (List.filter (fun e => keep (fst e) && is_open h (u_ws (snd e))) (users h)).

(** Does [userId] send a [join] frame in [es]? *)
Definition is_join_of (userId : string) (e : Event) : bool :=
  match e with
  | Frame u (Some (Join _)) _ _ => String.eqb u userId
  | _ => false
  end.

(** The names asked for by the [join] frames of a run. *)
Fixpoint join_names (es : list Event) : list string :=
  match es with
  | [] => []
  | Frame _ (Some (Join name)) _ _ :: es' => name :: join_names es'
  | _ :: es' => join_names es'
  end.


(** The numbers below [k], for facts checked by enumeration. *)
Definition below (k : nat) : list N := map N.of_nat (seq 0 k).

(** Does the transport close the connection [userId] in this event? *)
Definition is_close_of (userId : string) (e : Event) : bool :=
  match e with
  | CloseEvent u _ _ => String.eqb u userId
  | _ => false
  end.

Definition is_Joined (f : ServerMsg) : bool :=
  match f with
  | Joined _ _ => true
  | _ => false
  end.

(** What ties the registry to the connections: every entry of [users]
    belongs to a live connection and holds that connection's socket, and no
    two connections share a socket. *)
Definition consistent (w : World) : Prop :=
  (forall userId u, In (userId, u) (users (hub w)) ->
                    Map_get userId (conns w) = Some (u_ws u)) /\
  (forall u1 u2 ws, Map_get u1 (conns w) = Some ws ->
                    Map_get u2 (conns w) = Some ws -> u1 = u2).

(** ** A host to run the examples on

    The time stamp is printed as it is.  Numbers are whole, which is enough
    for what [formatFileSize] does with a whole size below 1024.  The
    server may write [chatlog.txt] and, in [received], every file whose name
    is a plain one of at most 255 bytes without a NUL. *)
Definition decimal (n : Z) : string := NilZero.string_of_int (Z.to_int n).

Fixpoint leading_digits (acc : Z) (s : string) : Z :=
  match s with
  | EmptyString => acc
  | String c s' =>
      let n := Z.of_nat (nat_of_ascii c) in
      if ((48 <=? n) && (n <=? 57))%Z then leading_digits (10 * acc + (n - 48)) s'
      else acc
  end.

(** A file name that [path.join] leaves as it is: not empty, not a dot
    segment, and without a separator. *)
Definition plain_name (name : string) : bool :=
  negb (String.eqb name "") && negb (String.eqb name ".")
  && negb (String.eqb name "..") && negb (has_slash name).

Definition has_nul (s : string) : bool :=
  existsb (Ascii.eqb "000"%char) (list_ascii_of_string s).

(** What is left of [s] after the prefix [p], if [s] starts with it. *)
Fixpoint after_prefix (p s : string) : option string :=
  match p, s with
  | EmptyString, _ => Some s
  | String a p', String b s' => if Ascii.eqb a b then after_prefix p' s' else None
  | String _ _, EmptyString => None
  end.

Definition plain_writable (path : string) : bool :=
  String.eqb path "chatlog.txt"
  || match after_prefix "received/" path with
     | Some name =>
         plain_name name && negb (has_nul name) && (String.length name <=? 255)%nat
     | None => false
     end.

Definition plain_host : Runtime :=
  {| toLocaleString := fun ts => ts;
     double := Z;
     of_Z := fun n => n;
     Math_log := Z.log2;
     Math_floor := fun n => n;
     Math_pow := Z.pow;
     divide := Z.div;
     toFixed := fun n digits => decimal n +:+ "." +:+ string_of_list_ascii (repeat "0"%char digits);
     parseFloat := leading_digits 0;
     Number_toString := decimal;
     array_index := fun n => if (n <? 0)%Z then None else Some (Z.to_nat n);
     writable := plain_writable;
     received_is_directory := eq_refl |}.

(** ** Scenarios *)

Definition world_after (es : list Event) : World :=
  default new_world (run (H := plain_host) es new_world).

(** A connects. *)
Definition connects_A : list Event := [Connection "idA" 1].

(** A connects and joins as "A". *)
Definition joins_A : list Event :=
  connects_A ++ [Frame "idA" (Some (Join "A")) "e1" "t1"].

(** B connects after A has joined. *)
Definition joins_A_connects_B : list Event := joins_A ++ [Connection "idB" 2].

(** Then B joins as "B". *)
Definition joins_A_B : list Event :=
  joins_A_connects_B ++ [Frame "idB" (Some (Join "B")) "e2" "t2"].

(** Two participants who both chose the name "Alice". *)
Definition two_alices : list Event :=
  [Connection "idA" 1; Frame "idA" (Some (Join "Alice")) "e1" "t1";
   Connection "idB" 2; Frame "idB" (Some (Join "Alice")) "e2" "t2"].

(** Alice is the only participant. *)
Definition alice_alone : list Event :=
  [Connection "idA" 1; Frame "idA" (Some (Join "Alice")) "e1" "t1"].

(** A joins as "A" and then sends a second [join], with an empty name. *)
Definition joins_twice : list Event :=
  joins_A ++ [Frame "idA" (Some (Join "")) "e2" "t2"].

(** The ten bytes of [report.pdf] on A's disk, and the frame that [/send]
    makes of it. *)
Definition report_pdf : list byte :=
  [x25; x50; x44; x46; x2d; x31; x2e; x34; x0a; x25].

Definition disk_of_A : gmap string (list byte) :=
  {[ "/home/a/report.pdf" := report_pdf ]}.

Definition report_transfer : FileTransfer :=
  mkFileTransfer "report.pdf" (Buffer.toString_base64 report_pdf) 10 "A".



(** Three bytes sent without a file name. *)
Definition nameless_transfer : FileTransfer :=
  mkFileTransfer "" "QUJD" 3 "A".

(** ** The HTTP routes of [setupRoutes] *)

(** The body of [GET /api/health]. *)
Record Health : Type := mkHealth {
  h_status : string;
  h_users : nat;
  h_messages : nat
}.

Definition api_health (h : Hub) : Health :=
  mkHealth "healthy" (length (users h)) (length (chatLog h)).

(** [GET /api/chat-history]. *)
Definition api_chat_history (h : Hub) : list ChatMessage := chatLog h.

(** [GET /api/users]. *)
Definition api_users (h : Hub) : list string :=
  map u_username (Map_values (users h)).


(** The text that [saveChatLog] writes. *)
Definition logContent `{Runtime} (l : list ChatMessage) : string :=
  String.concat LF
    (map (fun msg =>
            "[" +:+ toLocaleString (m_timestamp msg) +:+ "] " +:+
            m_username msg +:+ ": " +:+ m_message msg)
         l).

(** ** More of the CLI client *)

(** [toLowerCase] on the ASCII letters. *)
Definition toLowerCase_char (c : ascii) : ascii :=
  let n := nat_of_ascii c in
  if (65 <=? n)%nat && (n <=? 90)%nat then ascii_of_nat (n + 32) else c.

Fixpoint toLowerCase (s : string) : string :=
  match s with
  | EmptyString => EmptyString
  | String c s' => String (toLowerCase_char c) (toLowerCase s')
  end.

(** [s.split(" ")]: the pieces between single blanks, empty pieces kept. *)
Fixpoint split_space (s : string) : list string :=
  match s with
  | EmptyString => [EmptyString]
  | String c s' =>
      if Ascii.eqb c " "%char then EmptyString :: split_space s'
      else match split_space s' with
           | piece :: pieces => String c piece :: pieces
           | [] => [String c EmptyString]
           end
  end.

(** [args.join(" ")]. *)
Definition join_space (args : list string) : string := String.concat " " args.

Definition has_space (s : string) : bool :=
  existsb (Ascii.eqb " "%char) (list_ascii_of_string s).

(** What a command line makes the client do. *)
Inductive CliAction : Type :=
  | ShowHelp
  | DoSendFile (filepath : string)
  | Usage
  | Quit
  | Clear
  | UnknownCommand.

Definition handleCommand (command : string) : CliAction :=
  match split_space command with
  | [] => UnknownCommand
  | cmd :: args =>
      let c := toLowerCase cmd in
      if String.eqb c "/help" then ShowHelp
      else if String.eqb c "/send" || String.eqb c "/file" then
        match args with
        | [] => Usage
        | _ => DoSendFile (join_space args)
        end
      else if String.eqb c "/quit" || String.eqb c "/exit" then Quit
      else if String.eqb c "/clear" then Clear
      else UnknownCommand
  end.

(** What a line typed in the chat loop leads to. *)
Inductive CliInput : Type :=
  | Command (action : CliAction)
  | Say (frame : ClientMsg)
  | Ignore.

Definition startsWith_slash (s : string) : bool :=
  match s with
  | String c _ => Ascii.eqb c "/"%char
  | EmptyString => false
  end.

Definition handleInput (input : string) : CliInput :=
  if startsWith_slash input then Command (handleCommand input)
  else if (0 <? String.length input)%nat then Say (Chat input)
  else Ignore.

(** [startChatLoop]: every line is trimmed before it is handled. *)
Definition chatLine (line : string) : CliInput := handleInput (trim line).




(** The frames of an outbox that went to one socket, in the order sent. *)
Definition inbox (ws : WebSocket) (o : list (WebSocket * ServerMsg)) : list ServerMsg :=
  map snd (List.filter (fun e => Nat.eqb (fst e) ws) o).


(** The chat events that went to one socket as [message] frames. *)
Definition delivered (ws : WebSocket) (o : list (WebSocket * ServerMsg))
    : list ChatMessage :=
  flat_map (fun f => match f with Message m => [m] | _ => [] end) (inbox ws o).

(** ** Reading events *)

Definition registered (userId : string) (h : Hub) : bool :=
  match Map_get userId (users h) with
  | Some _ => true
  | None => false
  end.

(** Does the event put a chat event in the log?  A [file] frame does when
    its sender is registered and its write returns. *)
Definition logs `{Runtime} (e : Event) (w : World) : bool :=
  match e with
  | Frame _ (Some (Join _)) _ _ => true
  | Frame userId (Some (Chat _)) _ _ => registered userId (hub w)
  | Frame userId (Some (File fd)) _ _ =>
      registered userId (hub w) && writable (path_join "received" (filename fd))
  | CloseEvent userId _ _ => registered userId (hub w)
  | _ => false
  end.

(** Does the event bring a new participant into the registry? *)
Definition enters (e : Event) (w : World) : bool :=
  match e with
  | Frame userId (Some (Join _)) _ _ => negb (registered userId (hub w))
  | _ => false
  end.

(** Does the event take a participant out of the registry? *)
Definition leaves (e : Event) (w : World) : bool :=
  match e with
  | CloseEvent userId _ _ => registered userId (hub w)
  | _ => false
  end.


(** A [join] request with what the server draws for it. *)
Record JoinRequest : Type := mkJoinRequest {
  j_ws : WebSocket;
  j_userId : string;
  j_username : string;
  j_mid : string;
  j_now : string
}.

(** [join] requests handled one after the other. *)
Definition join_all `{Runtime} (joins : list JoinRequest) (h : Hub) : Hub :=
  fold_left
    (fun acc j =>
       handleUserJoin (j_ws j) (j_userId j) (j_username j) (j_mid j) (j_now j) acc)
    joins h.

(** The registry as a JS [Map] keeps it: one entry per key, one key per
    connection, and every entry filed under its own id. *)
Definition well_formed (w : World) : Prop :=
  List.NoDup (Map_keys (users (hub w))) /\
  List.NoDup (Map_keys (conns w)) /\
  (forall k u, In (k, u) (users (hub w)) -> u_id u = k).

(** ** More scenarios *)

(** A, joined, says "hi"; B, joined, answers. *)
Definition chat_from_A : Event := Frame "idA" (Some (Chat "hi")) "e3" "t3".


(** A sends three bytes without a file name. *)
Definition nameless_upload : Event := Frame "idA" (Some (File nameless_transfer)) "e3" "t3".

(** The answer "Bob" with a no-break space (U+00A0) before it and a blank
    and an ideographic space (U+3000) after it, and a line of such spaces
    only. *)
Definition padded_answer : string :=
  String "194" (String "160" ("Bob " +:+ String "227" (String "128" (String "128" "")))).

Definition blank_line : string :=
  String "227" (String "128" (String "128" (String "194" (String "160" " ")))).

(** B speaks before it has joined. *)
Definition early_chat_from_B : Event := Frame "idB" (Some (Chat "hi")) "e2" "t2".


(** A and B ask to join. *)
Definition two_joins : list JoinRequest :=
  [mkJoinRequest 1 "idA" "A" "e1" "t1"; mkJoinRequest 2 "idB" "B" "e2" "t2"].

(** * Facts *)

(** ** The base64 codec: decoding what was encoded *)

Section Enumeration.

Lemma in_below (k : nat) (n : N) : (n < N.of_nat k)%N -> In n (below k).
Proof.
  intros Hn. unfold below. apply in_map_iff.
  exists (N.to_nat n). split; [apply N2Nat.id |].
  apply in_seq. lia.
Qed.

Lemma checked1 (p : N -> bool) (k : nat) :
  forallb p (below k) = true ->
  forall n, (n < N.of_nat k)%N -> p n = true.
Proof.
  intros Hall n Hn.
  rewrite forallb_forall in Hall. apply Hall, in_below, Hn.
Qed.

Lemma checked2 (p : N -> N -> bool) (j k : nat) :
  forallb (fun a => forallb (p a) (below k)) (below j) = true ->
  forall a b, (a < N.of_nat j)%N -> (b < N.of_nat k)%N -> p a b = true.
Proof.
  intros Hall a b Ha Hb.
  apply (checked1 (fun a => forallb (p a) (below k)) j Hall a) in Ha.
  exact (checked1 (p a) k Ha b Hb).
Qed.

End Enumeration.

Module BufferFacts.
Import Buffer.

Lemma to_N_lt (a : byte) : (Byte.to_N a < N.of_nat 256)%N.
Proof. pose proof (Byte.to_N_bounded a). lia. Qed.

Lemma byte_of_to_N (a : byte) : byte_of_N (Byte.to_N a) = a.
Proof. destruct a; reflexivity. Qed.

Lemma unbase64_sextet_char (s : N) :
  (s < 64)%N ->
  unbase64 (sextet_char s) = Some s /\ Ascii.eqb (sextet_char s) "="%char = false.
Proof.
  intros Hs.
  pose proof (checked1
    (fun s => match unbase64 (sextet_char s) with
              | Some t => N.eqb t s
              | None => false
              end && negb (Ascii.eqb (sextet_char s) "="%char)) 64) as Hc.
  specialize (Hc ltac:(vm_compute; reflexivity) s Hs). cbv beta in Hc.
  apply andb_prop in Hc as [Hv Hp].
  destruct (unbase64 (sextet_char s)) as [t|]; [| discriminate].
  apply N.eqb_eq in Hv. subst t.
  split; [reflexivity |]. now apply negb_true_iff in Hp.
Qed.

(** A character below U+0080 is one code unit, which is its byte. *)
Lemma low_bytes_ascii (c : ascii) (rest : string) :
  (N_of_ascii c <? 128)%N = true ->
  low_bytes (String c rest) = c :: low_bytes rest.
Proof. intros Hc. cbn [low_bytes]. now rewrite Hc. Qed.

Lemma sextet_char_ascii (s : N) :
  (s < 64)%N -> (N_of_ascii (sextet_char s) <? 128)%N = true.
Proof.
  intros Hs.
  exact (checked1 (fun s => N_of_ascii (sextet_char s) <? 128)%N 64
           ltac:(vm_compute; reflexivity) s Hs).
Qed.

Lemma sextets_char (s : N) (rest : string) :
  (s < 64)%N -> sextets (String (sextet_char s) rest) = s :: sextets rest.
Proof.
  intros Hs. destruct (unbase64_sextet_char s Hs) as [Hv Hp].
  unfold sextets. rewrite low_bytes_ascii by now apply sextet_char_ascii.
  cbn [sextets_of]. now rewrite Hp, Hv.
Qed.

Lemma enc0_lt (a : N) : (a < N.of_nat 256)%N -> (enc0 a < 64)%N.
Proof.
  intros Ha. apply N.ltb_lt.
  exact (checked1 (fun a => enc0 a <? 64)%N 256 ltac:(vm_compute; reflexivity) a Ha).
Qed.

Lemma enc3_lt (c : N) : (c < N.of_nat 256)%N -> (enc3 c < 64)%N.
Proof.
  intros Hc. apply N.ltb_lt.
  exact (checked1 (fun c => enc3 c <? 64)%N 256 ltac:(vm_compute; reflexivity) c Hc).
Qed.

Lemma enc1_lt (a b : N) :
  (a < N.of_nat 256)%N -> (b < N.of_nat 256)%N -> (enc1 a b < 64)%N.
Proof.
  intros Ha Hb. apply N.ltb_lt.
  exact (checked2 (fun a b => enc1 a b <? 64)%N 256 256
           ltac:(vm_compute; reflexivity) a b Ha Hb).
Qed.

Lemma enc2_lt (b c : N) :
  (b < N.of_nat 256)%N -> (c < N.of_nat 256)%N -> (enc2 b c < 64)%N.
Proof.
  intros Hb Hc. apply N.ltb_lt.
  exact (checked2 (fun b c => enc2 b c <? 64)%N 256 256
           ltac:(vm_compute; reflexivity) b c Hb Hc).
Qed.

Lemma dec0_enc (a b : N) :
  (a < N.of_nat 256)%N -> (b < N.of_nat 256)%N -> dec0 (enc0 a) (enc1 a b) = a.
Proof.
  intros Ha Hb. apply N.eqb_eq.
  exact (checked2 (fun a b => dec0 (enc0 a) (enc1 a b) =? a)%N 256 256
           ltac:(vm_compute; reflexivity) a b Ha Hb).
Qed.

(** The low four bits of the second sextet come from the second byte alone. *)
Lemma enc1_low (a b : N) :
  (a < N.of_nat 256)%N -> (b < N.of_nat 256)%N ->
  N.land (enc1 a b) 15 = N.shiftr b 4.
Proof.
  intros Ha Hb. apply N.eqb_eq.
  exact (checked2 (fun a b => N.land (enc1 a b) 15 =? N.shiftr b 4)%N 256 256
           ltac:(vm_compute; reflexivity) a b Ha Hb).
Qed.

Lemma dec1_enc (a b c : N) :
  (a < N.of_nat 256)%N -> (b < N.of_nat 256)%N -> (c < N.of_nat 256)%N ->
  dec1 (enc1 a b) (enc2 b c) = b.
Proof.
  intros Ha Hb Hc. unfold dec1. rewrite (enc1_low a b Ha Hb).
  apply N.eqb_eq.
  exact (checked2
           (fun b c => N.lor (N.shiftl (N.shiftr b 4) 4) (N.shiftr (enc2 b c) 2) =? b)%N
           256 256 ltac:(vm_compute; reflexivity) b c Hb Hc).
Qed.

Lemma dec2_enc (b c : N) :
  (b < N.of_nat 256)%N -> (c < N.of_nat 256)%N -> dec2 (enc2 b c) (enc3 c) = c.
Proof.
  intros Hb Hc. apply N.eqb_eq.
  exact (checked2 (fun b c => dec2 (enc2 b c) (enc3 c) =? c)%N 256 256
           ltac:(vm_compute; reflexivity) b c Hb Hc).
Qed.

Lemma list_ind3 {A} (P : list A -> Prop) :
  P [] -> (forall a, P [a]) -> (forall a b, P [a; b]) ->
  (forall a b c l, P l -> P (a :: b :: c :: l)) ->
  forall l, P l.
Proof.
  intros H0 H1 H2 H3.
  fix IH 1. intros [|a [|b [|c l]]];
    [apply H0 | apply H1 | apply H2 | apply H3, IH].
Qed.

Lemma zero_lt : (0 < N.of_nat 256)%N.
Proof. reflexivity. Qed.

(** Decoding the encoding of a buffer gives the buffer back. *)
Lemma from_base64_toString (buf : list byte) :
  from_base64 (toString_base64 buf) = buf.
Proof.
  unfold from_base64.
  induction buf as [|a|a b|a b c rest IH] using list_ind3.
  - reflexivity.
  - cbn [toString_base64].
    pose proof (to_N_lt a) as Ha.
    rewrite !sextets_char by auto using enc0_lt, enc1_lt, zero_lt.
    change (sextets "==") with (@nil N).
    change (unpack [enc0 (Byte.to_N a); enc1 (Byte.to_N a) 0])
      with [byte_of_N (dec0 (enc0 (Byte.to_N a)) (enc1 (Byte.to_N a) 0))].
    rewrite dec0_enc by auto using zero_lt. now rewrite byte_of_to_N.
  - cbn [toString_base64].
    pose proof (to_N_lt a) as Ha. pose proof (to_N_lt b) as Hb.
    rewrite !sextets_char by auto using enc0_lt, enc1_lt, enc2_lt, zero_lt.
    change (sextets "=") with (@nil N).
    cbn [unpack].
    rewrite dec0_enc, dec1_enc by auto using zero_lt.
    now rewrite !byte_of_to_N.
  - cbn [toString_base64].
    pose proof (to_N_lt a) as Ha. pose proof (to_N_lt b) as Hb.
    pose proof (to_N_lt c) as Hc.
    rewrite !sextets_char by auto using enc0_lt, enc1_lt, enc2_lt, enc3_lt.
    cbn [unpack].
    rewrite dec0_enc, dec1_enc, dec2_enc by auto.
    now rewrite !byte_of_to_N, IH.
Qed.

End BufferFacts.

(** ** JS [Map] *)

Section MapFacts.
Context {V : Type}.
Implicit Types (m : Map V) (k : string) (v : V).

Lemma Map_get_set_eq k v m : Map_get k (Map_set k v m) = Some v.
Proof.
  induction m as [|[k' v'] m IH]; cbn.
  - now rewrite String.eqb_refl.
  - destruct (String.eqb k' k) eqn:E; cbn.
    + now rewrite String.eqb_refl.
    + now rewrite E.
Qed.

Lemma Map_get_set_ne k k' v m :
  k <> k' -> Map_get k' (Map_set k v m) = Map_get k' m.
Proof.
  intros Hne. apply String.eqb_neq in Hne.
  induction m as [|[k0 v0] m IH]; cbn.
  - now rewrite Hne.
  - destruct (String.eqb k0 k) eqn:E; cbn.
    + apply String.eqb_eq in E. subst k0. now rewrite Hne.
    + now rewrite IH.
Qed.

Lemma Map_get_delete_eq k m : Map_get k (Map_delete k m) = None.
Proof.
  unfold Map_delete.
  induction m as [|[k' v'] m IH]; cbn; [reflexivity |].
  destruct (String.eqb k' k) eqn:E; cbn; [exact IH |].
  now rewrite E.
Qed.

Lemma Map_get_delete_ne k k' m :
  k <> k' -> Map_get k' (Map_delete k m) = Map_get k' m.
Proof.
  intros Hne. unfold Map_delete.
  induction m as [|[k0 v0] m IH]; cbn; [reflexivity |].
  destruct (String.eqb k0 k) eqn:E; cbn.
  - apply String.eqb_eq in E. subst k0.
    apply String.eqb_neq in Hne. now rewrite Hne.
  - now rewrite IH.
Qed.

Lemma Map_delete_absent k m : Map_get k m = None -> Map_delete k m = m.
Proof.
  unfold Map_delete.
  induction m as [|[k' v'] m IH]; cbn; [reflexivity |].
  destruct (String.eqb k' k) eqn:E; cbn; [discriminate |].
  intros Hm. now rewrite (IH Hm).
Qed.

Lemma Map_get_In k v m : Map_get k m = Some v -> In (k, v) m.
Proof.
  induction m as [|[k' v'] m IH]; cbn; [discriminate |].
  destruct (String.eqb k' k) eqn:E.
  - apply String.eqb_eq in E. intros [= ->]. subst. now left.
  - intros Hm. right. now apply IH.
Qed.

Lemma Map_get_None_keys k m : Map_get k m = None -> ~ In k (Map_keys m).
Proof.
  induction m as [|[k' v'] m IH]; cbn; [tauto |].
  destruct (String.eqb k' k) eqn:E; [discriminate |].
  apply String.eqb_neq in E. intros Hm [Hk | Hin]; [contradiction |].
  now apply IH.
Qed.

Lemma In_Map_get k v m : List.NoDup (Map_keys m) -> In (k, v) m -> Map_get k m = Some v.
Proof.
  induction m as [|[k' v'] m IH]; cbn; [tauto |].
  intros Hnd [Heq | Hin].
  - injection Heq as -> ->. now rewrite String.eqb_refl.
  - apply List.NoDup_cons_iff in Hnd as [Hk Hnd].
    destruct (String.eqb k' k) eqn:E; [| now apply IH].
    apply String.eqb_eq in E. subst k'. exfalso. apply Hk.
    unfold Map_keys. apply in_map_iff. now exists (k, v).
Qed.

Lemma Map_keys_set_In k k' v m :
  In k' (Map_keys (Map_set k v m)) -> k' = k \/ In k' (Map_keys m).
Proof.
  induction m as [|[k0 v0] m IH]; cbn.
  - intros [-> | []]. now left.
  - destruct (String.eqb k0 k) eqn:E; cbn.
    + apply String.eqb_eq in E. subst k0. intros [-> | Hin]; auto.
    + intros [-> | Hin]; auto. destruct (IH Hin); auto.
Qed.

Lemma Map_set_NoDup k v m : List.NoDup (Map_keys m) -> List.NoDup (Map_keys (Map_set k v m)).
Proof.
  induction m as [|[k0 v0] m IH]; cbn; intros Hnd.
  - constructor; [tauto | constructor].
  - apply List.NoDup_cons_iff in Hnd as [Hk Hnd].
    destruct (String.eqb k0 k) eqn:E; cbn.
    + apply String.eqb_eq in E. subst k0. now constructor.
    + apply String.eqb_neq in E. constructor; [| now apply IH].
      intros Hin. apply Map_keys_set_In in Hin as [-> | Hin]; tauto.
Qed.

Lemma Map_delete_NoDup k m : List.NoDup (Map_keys m) -> List.NoDup (Map_keys (Map_delete k m)).
Proof.
  unfold Map_delete.
  induction m as [|[k0 v0] m IH]; cbn; intros Hnd; [constructor |].
  apply List.NoDup_cons_iff in Hnd as [Hk Hnd].
  destruct (String.eqb k0 k) eqn:E; cbn; [now apply IH |].
  constructor; [| now apply IH].
  intros Hin. apply Hk. unfold Map_keys in *.
  apply in_map_iff in Hin as [e [He Hin]]. apply filter_In in Hin as [Hin _].
  apply in_map_iff. now exists e.
Qed.

Lemma Map_delete_In k e m : In e (Map_delete k m) <-> In e m /\ fst e <> k.
Proof.
  unfold Map_delete. rewrite filter_In, negb_true_iff, String.eqb_neq. tauto.
Qed.

End MapFacts.

(** ** Fan-out *)

Section HubFacts.
Context `{Runtime}.

Lemma set_outbox_id (h : Hub) : set_outbox (outbox h) h = h.
Proof. now destruct h. Qed.

Lemma forEach_send_from (keep : string -> bool) (data : ServerMsg) (h : Hub)
    (us : Map User) (o : list (WebSocket * ServerMsg)) :
  Map_forEach
    (fun user userId acc =>
       if keep userId && is_open acc (u_ws user)
       then ws_send (u_ws user) data acc else acc)
    us (set_outbox o h)
  = set_outbox
      (o ++ map (fun e => (u_ws (snd e), data))
              (List.filter (fun e => keep (fst e) && is_open h (u_ws (snd e))) us))
      h.
Proof.
  unfold Map_forEach.
  revert o. induction us as [|[k u] us IH]; intros o; cbn [fold_left List.filter map].
  - now rewrite app_nil_r.
  - cbn [fst snd].
    change (is_open (set_outbox o h) (u_ws u)) with (is_open h (u_ws u)).
    destruct (keep k && is_open h (u_ws u)); cbn [map].
    + change (ws_send (u_ws u) data (set_outbox o h))
        with (set_outbox (o ++ [(u_ws u, data)]) h).
      rewrite IH. now rewrite <- app_assoc.
    + apply IH.
Qed.

(** A [forEach] that sends [data] to the open sockets of the entries that
    pass [keep] adds exactly [fanout keep data] to the outbox. *)
Lemma forEach_send (keep : string -> bool) (data : ServerMsg) (h : Hub) :
  Map_forEach
    (fun user userId acc =>
       if keep userId && is_open acc (u_ws user)
       then ws_send (u_ws user) data acc else acc)
    (users h) h
  = set_outbox (outbox h ++ fanout keep data h) h.
Proof.
  pose proof (forEach_send_from keep data h (users h) (outbox h)) as E.
  rewrite set_outbox_id in E. exact E.
Qed.

Lemma broadcast_eq (data : ServerMsg) (h : Hub) :
  broadcast data h = set_outbox (outbox h ++ fanout (fun _ => true) data h) h.
Proof. exact (forEach_send (fun _ => true) data h). Qed.

Lemma broadcastToOthers_eq (excl : string) (data : ServerMsg) (h : Hub) :
  broadcastToOthers excl data h
  = set_outbox (outbox h ++ fanout (fun k => negb (String.eqb k excl)) data h) h.
Proof. exact (forEach_send (fun k => negb (String.eqb k excl)) data h). Qed.

Lemma fanout_ext keep data (h h' : Hub) :
  users h = users h' -> sockets h = sockets h' ->
  fanout keep data h = fanout keep data h'.
Proof.
  intros Hu Hs. unfold fanout, is_open, readyState. now rewrite Hu, Hs.
Qed.

(** What [broadcastMessage] leaves in each part of the hub. *)
Lemma broadcastMessage_users m h : users (broadcastMessage m h) = users h.
Proof. unfold broadcastMessage. now rewrite broadcast_eq. Qed.

Lemma broadcastMessage_sockets m h : sockets (broadcastMessage m h) = sockets h.
Proof. unfold broadcastMessage. now rewrite broadcast_eq. Qed.

Lemma broadcastMessage_chatLog m h : chatLog (broadcastMessage m h) = chatLog h ++ [m].
Proof. unfold broadcastMessage. now rewrite broadcast_eq. Qed.

Lemma broadcastMessage_outbox m h :
  outbox (broadcastMessage m h) = outbox h ++ fanout (fun _ => true) (Message m) h.
Proof. unfold broadcastMessage. now rewrite broadcast_eq. Qed.

Lemma broadcastMessage_disk m h (p : string) :
  p <> "chatlog.txt" -> disk (broadcastMessage m h) !! p = disk h !! p.
Proof.
  intros Hp. unfold broadcastMessage. rewrite broadcast_eq.
  cbn. now rewrite lookup_insert_ne.
Qed.

End HubFacts.

(** ** [path.join] on file names *)

Section PathFacts.

Lemma has_slash_cons c p :
  has_slash (String c p) = Ascii.eqb "/"%char c || has_slash p.
Proof. reflexivity. Qed.

Lemma append_empty (s : string) : s +:+ "" = s.
Proof.
  induction s as [|c s IH]; [reflexivity |].
  change (String c s +:+ "") with (String c (s +:+ "")). now rewrite IH.
Qed.

(** A name without a separator is one segment. *)
Lemma segments_name (name : string) : has_slash name = false -> segments name = [name].
Proof.
  induction name as [|c name IH]; intros Hn; [reflexivity |].
  rewrite has_slash_cons in Hn. apply orb_false_elim in Hn as [Hc Hn].
  cbn [segments]. rewrite Ascii.eqb_sym, Hc. now rewrite (IH Hn).
Qed.

Lemma trailingSeparator_name (name : string) :
  has_slash name = false -> trailingSeparator name = false.
Proof.
  induction name as [|c name IH]; intros Hn; [reflexivity |].
  rewrite has_slash_cons in Hn. apply orb_false_elim in Hn as [Hc Hn].
  cbn [trailingSeparator]. destruct name as [|d name].
  - now rewrite Ascii.eqb_sym.
  - now apply IH.
Qed.

Lemma segments_received (name : string) :
  has_slash name = false -> segments ("received/" +:+ name) = ["received"; name].
Proof.
  intros Hn. cbv [append]. cbn [segments Ascii.eqb Bool.eqb].
  now rewrite (segments_name name Hn).
Qed.

Lemma trailingSeparator_received c (name : string) :
  has_slash (String c name) = false ->
  trailingSeparator ("received/" +:+ String c name) = false.
Proof. intros Hn. cbn. exact (trailingSeparator_name (String c name) Hn). Qed.

(** What [path.join("received", name)] is for a name without separator:
    the file of that name in [received], or a directory. *)
Lemma path_join_name (name : string) :
  has_slash name = false ->
  path_join "received" name
  = if String.eqb name "" || String.eqb name "." then "received"
    else if String.eqb name ".." then "."
    else "received/" +:+ name.
Proof.
  intros Hn. destruct name as [|c name]; [reflexivity |].
  unfold path_join.
  change ("received" +:+ "/" +:+ String c name) with ("received/" +:+ String c name).
  unfold path_normalize, normalizeString.
  rewrite (segments_received _ Hn), (trailingSeparator_received _ _ Hn).
  change (String.eqb ("received/" +:+ String c name) "") with false.
  change (isAbsolute ("received/" +:+ String c name)) with false.
  cbn [negb fold_left].
  change (normalize_step true [] "received") with ["received"].
  unfold normalize_step.
  change (String.eqb (String c name) "") with false. cbn [orb].
  destruct (String.eqb (String c name) "."); [reflexivity |].
  destruct (String.eqb (String c name) ".."); [reflexivity |].
  cbn [String.eqb Ascii.eqb Bool.eqb andb rev app String.concat].
  change (String.eqb ("received" +:+ "/" +:+ String c name) "") with false.
  cbn [append]. now rewrite append_empty.
Qed.


(** No name without separator reaches the chat log file. *)
Lemma path_join_received (name : string) :
  has_slash name = false -> path_join "received" name <> "chatlog.txt".
Proof.
  intros Hn. rewrite (path_join_name name Hn).
  destruct (String.eqb name "" || String.eqb name "."); [discriminate |].
  destruct (String.eqb name ".."); discriminate.
Qed.

Lemma basename_plain (p : string) : has_slash (basename p) = false.
Proof.
  induction p as [|c p IH]; [reflexivity |].
  cbn [basename]. destruct (has_slash p) eqn:Hp; [exact IH |].
  destruct (Ascii.eqb c "/"%char) eqn:Hc; [exact Hp |].
  rewrite has_slash_cons, Hp, Ascii.eqb_sym, Hc. reflexivity.
Qed.

End PathFacts.

(** ** The handlers, part by part *)

Section HandlerFacts.
Context `{Runtime}.

Lemma broadcast_users data h : users (broadcast data h) = users h.
Proof. now rewrite broadcast_eq. Qed.

Lemma broadcast_chatLog data h : chatLog (broadcast data h) = chatLog h.
Proof. now rewrite broadcast_eq. Qed.

Lemma handleUserJoin_users ws userId username mid now h :
  users (handleUserJoin ws userId username mid now h)
  = Map_set userId (mkUser userId username ws) (users h).
Proof.
  unfold handleUserJoin, broadcastUserList.
  rewrite broadcast_users. unfold ws_send. cbn [users set_outbox].
  now rewrite broadcastMessage_users.
Qed.

Lemma handleUserJoin_chatLog ws userId username mid now h :
  chatLog (handleUserJoin ws userId username mid now h)
  = chatLog h
      ++ [mkChatMessage mid "System" (username +:+ " joined the chat") now TSystem].
Proof.
  unfold handleUserJoin, broadcastUserList.
  rewrite broadcast_chatLog. unfold ws_send. cbn [chatLog set_outbox].
  now rewrite broadcastMessage_chatLog.
Qed.

Lemma handleChatMessage_users userId text mid now h :
  users (handleChatMessage userId text mid now h) = users h.
Proof.
  unfold handleChatMessage. destruct (Map_get userId (users h)); [| reflexivity].
  apply broadcastMessage_users.
Qed.

Lemma handleFileTransfer_users userId fd mid now h :
  users (handleFileTransfer userId fd mid now h) = users h.
Proof.
  unfold handleFileTransfer. destruct (Map_get userId (users h)); [| reflexivity].
  rewrite broadcastToOthers_eq. cbn [users set_outbox].
  now rewrite broadcastMessage_users.
Qed.

Lemma handleUserDisconnect_users userId mid now h :
  users (handleUserDisconnect userId mid now h) = Map_delete userId (users h).
Proof.
  unfold handleUserDisconnect. destruct (Map_get userId (users h)) eqn:E.
  - unfold broadcastUserList. rewrite broadcast_users. cbn [users set_users].
    now rewrite broadcastMessage_users.
  - symmetry. now apply Map_delete_absent.
Qed.

(** A frame changes the registry only when it is a [join]. *)
(** A [file] frame is handled, or dropped because the write throws. *)
Lemma on_message_file ws userId fd mid now h :
  on_message ws userId (Some (File fd)) mid now h = handleFileTransfer userId fd mid now h
  \/ (on_message ws userId (Some (File fd)) mid now h = h
      /\ Map_get userId (users h) <> None
      /\ writable (path_join "received" (filename fd)) = false).
Proof.
  unfold on_message, throws.
  destruct (Map_get userId (users h)) as [user|]; [| now left].
  destruct (writable (path_join "received" (filename fd))); [now left | right].
  cbn [negb]. now repeat split.
Qed.




Lemma on_message_unregistered ws userId fd mid now h :
  Map_get userId (users h) = None ->
  on_message ws userId (Some (File fd)) mid now h = h.
Proof.
  intros Hu. unfold on_message, throws. rewrite Hu. cbn [handleWebSocketMessage].
  unfold handleFileTransfer. now rewrite Hu.
Qed.

Lemma on_message_users ws userId data mid now h :
  users (on_message ws userId data mid now h)
  = match data with
    | Some (Join username) => Map_set userId (mkUser userId username ws) (users h)
    | _ => users h
    end.
Proof.
  destruct data as [[username|text|fd|t]|].
  - apply handleUserJoin_users.
  - apply handleChatMessage_users.
  - destruct (on_message_file ws userId fd mid now h) as [-> | [-> _]];
      [apply handleFileTransfer_users | reflexivity].
  - reflexivity.
  - reflexivity.
Qed.

(** The file transfer of a registered sender, part by part. *)
Lemma handleFileTransfer_disk userId user fd mid now h :
  Map_get userId (users h) = Some user ->
  path_join "received" (filename fd) <> "chatlog.txt" ->
  disk (handleFileTransfer userId fd mid now h) !! path_join "received" (filename fd)
  = Some (Buffer.from_base64 (fileData fd)).
Proof.
  intros Hu Hp. unfold handleFileTransfer. rewrite Hu.
  rewrite broadcastToOthers_eq. cbn [disk set_outbox].
  rewrite broadcastMessage_disk by exact Hp.
  cbn [disk writeFileSync set_disk]. apply lookup_insert_eq.
Qed.



Lemma handleFileTransfer_chatLog userId user fd mid now h :
  Map_get userId (users h) = Some user ->
  chatLog (handleFileTransfer userId fd mid now h)
  = chatLog h
      ++ [mkChatMessage mid (u_username user)
            ("📎 Shared file: " +:+ filename fd +:+ " (" +:+
             formatFileSize (fileSize fd) +:+ ")")
            now TFile].
Proof.
  intros Hu. unfold handleFileTransfer. rewrite Hu.
  rewrite broadcastToOthers_eq. cbn [chatLog set_outbox].
  now rewrite broadcastMessage_chatLog.
Qed.

Lemma handleFileTransfer_outbox userId user fd mid now h :
  Map_get userId (users h) = Some user ->
  outbox (handleFileTransfer userId fd mid now h)
  = outbox h
      ++ fanout (fun _ => true)
           (Message (mkChatMessage mid (u_username user)
                       ("📎 Shared file: " +:+ filename fd +:+ " (" +:+
                        formatFileSize (fileSize fd) +:+ ")")
                       now TFile)) h
      ++ fanout (fun k => negb (String.eqb k userId))
           (FileReceived (filename fd) (fileData fd) (u_username user) (fileSize fd)
              ("/api/download/" +:+ filename fd)) h.
Proof.
  intros Hu. unfold handleFileTransfer. rewrite Hu.
  rewrite broadcastToOthers_eq. cbn [outbox set_outbox].
  rewrite broadcastMessage_outbox. cbn [outbox writeFileSync set_disk].
  rewrite <- app_assoc. f_equal. f_equal.
  apply fanout_ext.
  - now rewrite broadcastMessage_users.
  - now rewrite broadcastMessage_sockets.
Qed.

Lemma fanout_In keep data h ws f :
  In (ws, f) (fanout keep data h) <->
  f = data /\
  exists userId u, In (userId, u) (users h) /\ keep userId = true /\
                   u_ws u = ws /\ is_open h ws = true.
Proof.
  unfold fanout. rewrite in_map_iff. split.
  - intros [[k u] [Heq Hin]]. cbn in Heq. injection Heq as <- <-.
    apply filter_In in Hin as [Hin Hc]. cbn in Hc.
    apply andb_prop in Hc as [Hk Ho].
    split; [reflexivity |]. now exists k, u.
  - intros [-> (k & u & Hin & Hk & <- & Ho)].
    exists (k, u). split; [reflexivity |].
    apply filter_In. split; [exact Hin |]. cbn. now rewrite Hk, Ho.
Qed.

Lemma handleUserJoin_outbox ws userId username mid now h :
  let joinMessage :=
    mkChatMessage mid "System" (username +:+ " joined the chat") now TSystem in
  let h1 := set_users (Map_set userId (mkUser userId username ws) (users h)) h in
  outbox (handleUserJoin ws userId username mid now h)
  = outbox h
      ++ fanout (fun _ => true) (Message joinMessage) h1
      ++ [(ws, Joined (chatLog h ++ [joinMessage]) (userNames h1))]
      ++ fanout (fun _ => true) (UserList (userNames h1)) h1.
Proof.
  intros joinMessage h1.
  unfold handleUserJoin, broadcastUserList.
  rewrite broadcast_eq. unfold ws_send. cbn [outbox set_outbox].
  fold joinMessage. fold h1.
  rewrite broadcastMessage_outbox, broadcastMessage_chatLog.
  rewrite <- !app_assoc. do 2 f_equal.
  cbn [users set_outbox]. rewrite !broadcastMessage_users.
  change (map u_username (Map_values (users h1))) with (userNames h1).
  f_equal. apply fanout_ext; cbn [users sockets];
    [apply broadcastMessage_users | apply broadcastMessage_sockets].
Qed.

Lemma handleFileTransfer_sockets userId fd mid now h :
  sockets (handleFileTransfer userId fd mid now h) = sockets h.
Proof.
  unfold handleFileTransfer. destruct (Map_get userId (users h)); [| reflexivity].
  rewrite broadcastToOthers_eq. cbn [sockets set_outbox].
  now rewrite broadcastMessage_sockets.
Qed.

Lemma handleUserDisconnect_chatLog userId user mid now h :
  Map_get userId (users h) = Some user ->
  chatLog (handleUserDisconnect userId mid now h)
  = chatLog h
      ++ [mkChatMessage mid "System" (u_username user +:+ " left the chat") now TSystem].
Proof.
  intros Hu. unfold handleUserDisconnect. rewrite Hu.
  unfold broadcastUserList. rewrite broadcast_chatLog. cbn [chatLog set_users].
  apply broadcastMessage_chatLog.
Qed.

Lemma handleUserDisconnect_outbox userId user mid now h :
  Map_get userId (users h) = Some user ->
  let leaveMessage :=
    mkChatMessage mid "System" (u_username user +:+ " left the chat") now TSystem in
  let h2 := set_users (Map_delete userId (users h)) h in
  outbox (handleUserDisconnect userId mid now h)
  = outbox h
      ++ fanout (fun _ => true) (Message leaveMessage) h
      ++ fanout (fun _ => true) (UserList (userNames h2)) h2.
Proof.
  intros Hu leaveMessage h2. unfold handleUserDisconnect. rewrite Hu.
  fold leaveMessage. unfold broadcastUserList.
  rewrite broadcast_eq. cbn [outbox set_outbox set_users users].
  rewrite broadcastMessage_outbox, broadcastMessage_users.
  rewrite <- app_assoc. do 2 f_equal.
  apply fanout_ext; unfold h2; cbn [users sockets set_users];
    [reflexivity | apply broadcastMessage_sockets].
Qed.

Lemma handleUserDisconnect_absent userId mid now h :
  Map_get userId (users h) = None -> handleUserDisconnect userId mid now h = h.
Proof. intros Hu. unfold handleUserDisconnect. now rewrite Hu. Qed.

End HandlerFacts.

(** ** Runs of the server *)

Section RunFacts.
Context `{Runtime}.

Lemma Map_set_In {V} (k k' : string) (v v' : V) (m : Map V) :
  In (k', v') (Map_set k v m) -> (k', v') = (k, v) \/ In (k', v') m.
Proof.
  induction m as [|[k0 v0] m IH]; cbn.
  - intros [E | []]. now left.
  - destruct (String.eqb k0 k); cbn.
    + intros [E | Hin]; auto.
    + intros [E | Hin]; auto. destruct (IH Hin); auto.
Qed.

(** Induction along a run. *)
Lemma run_invariant (P : World -> Prop) :
  (forall e w w', P w -> fire e w = Some w' -> P w') ->
  forall es w w', P w -> run es w = Some w' -> P w'.
Proof.
  intros Hstep. induction es as [|e es IH]; intros w w' Hw Hrun; cbn in Hrun.
  - now injection Hrun as <-.
  - destruct (fire e w) as [w1|] eqn:E; [| discriminate].
    exact (IH w1 w' (Hstep e w w1 Hw E) Hrun).
Qed.

(** The registry after one event. *)
Lemma fire_users e w w' :
  fire e w = Some w' ->
  users (hub w')
  = match e with
    | Frame userId (Some (Join username)) _ _ =>
        match Map_get userId (conns w) with
        | Some ws => Map_set userId (mkUser userId username ws) (users (hub w))
        | None => users (hub w)
        end
    | CloseEvent userId _ _ => Map_delete userId (users (hub w))
    | _ => users (hub w)
    end.
Proof.
  destruct e as [userId ws|userId data mid now|userId mid now|ws st]; cbn [fire].
  - destruct (Map_get userId (conns w)); [discriminate |].
    destruct (existsb _ _); [discriminate |]. now intros [= <-].
  - destruct (Map_get userId (conns w)) as [ws|]; [| discriminate].
    intros [= <-]. cbn [hub]. rewrite on_message_users.
    now destruct data as [[]|].
  - destruct (Map_get userId (conns w)) as [ws|]; [| discriminate].
    intros [= <-]. cbn [hub]. now rewrite handleUserDisconnect_users.
  - now intros [= <-].
Qed.

Lemma fresh_socket (ws ws' : WebSocket) (k : string) (c : Map WebSocket) :
  existsb (Nat.eqb ws) (Map_values c) = false ->
  Map_get k c = Some ws' -> ws' <> ws.
Proof.
  intros Hfresh Hget ->. apply Map_get_In in Hget.
  assert (existsb (Nat.eqb ws) (Map_values c) = true) as Hex; [| congruence].
  apply existsb_exists. exists ws. split; [| apply Nat.eqb_refl].
  unfold Map_values. apply in_map_iff. now exists (k, ws).
Qed.

Lemma consistent_new : consistent new_world.
Proof. split; [intros ? ? [] | discriminate]. Qed.

Lemma consistent_fire e w w' : consistent w -> fire e w = Some w' -> consistent w'.
Proof.
  intros [Hreg Hinj] Hfire. pose proof (fire_users e w w' Hfire) as Hus.
  destruct e as [userId ws|userId data mid now|userId mid now|ws st]; cbn [fire] in Hfire.
  - destruct (Map_get userId (conns w)) eqn:Hc; [discriminate |].
    destruct (existsb _ _) eqn:Hfresh; [discriminate |].
    injection Hfire as <-. unfold consistent. cbn [hub conns] in *. split.
    + intros k u Hin. rewrite Hus in Hin. pose proof (Hreg k u Hin) as Hk.
      rewrite Map_get_set_ne; [exact Hk | congruence].
    + intros u1 u2 s H1 H2.
      destruct (String.eqb_spec userId u1) as [<-|N1];
        destruct (String.eqb_spec userId u2) as [<-|N2]; [reflexivity | | |].
      * rewrite Map_get_set_eq in H1. rewrite Map_get_set_ne in H2 by assumption.
        injection H1 as <-. now destruct (fresh_socket ws ws u2 _ Hfresh H2).
      * rewrite Map_get_set_eq in H2. rewrite Map_get_set_ne in H1 by assumption.
        injection H2 as <-. now destruct (fresh_socket ws ws u1 _ Hfresh H1).
      * rewrite Map_get_set_ne in H1, H2 by assumption. exact (Hinj u1 u2 s H1 H2).
  - destruct (Map_get userId (conns w)) as [ws|] eqn:Hc; [| discriminate].
    injection Hfire as <-. unfold consistent. cbn [hub conns] in *. split; [| exact Hinj].
    intros k u Hin. rewrite Hus in Hin.
    destruct data as [[username|text|fd|t]|]; try exact (Hreg k u Hin).
    apply Map_set_In in Hin as [E | Hin]; [| exact (Hreg k u Hin)].
    injection E as -> ->. exact Hc.
  - destruct (Map_get userId (conns w)) as [ws|] eqn:Hc; [| discriminate].
    injection Hfire as <-. unfold consistent. cbn [hub conns] in *. split.
    + intros k u Hin. rewrite Hus in Hin.
      apply Map_delete_In in Hin as [Hin Hne]. cbn in Hne.
      rewrite Map_get_delete_ne by congruence. exact (Hreg k u Hin).
    + intros u1 u2 s H1 H2.
      destruct (String.eqb_spec userId u1) as [<-|N1];
        [now rewrite Map_get_delete_eq in H1 |].
      destruct (String.eqb_spec userId u2) as [<-|N2];
        [now rewrite Map_get_delete_eq in H2 |].
      rewrite Map_get_delete_ne in H1, H2 by assumption. exact (Hinj u1 u2 s H1 H2).
  - injection Hfire as <-. unfold consistent. cbn [hub conns] in *. split; [| exact Hinj].
    intros k u Hin. rewrite Hus in Hin. exact (Hreg k u Hin).
Qed.

Lemma consistent_run es w :
  run es new_world = Some w -> consistent w.
Proof.
  apply (run_invariant consistent).
  - intros e w0 w1. apply consistent_fire.
  - apply consistent_new.
Qed.

(** Two entries of the registry of a consistent world never share a socket. *)
Lemma sockets_apart w k1 k2 u1 u2 :
  consistent w ->
  In (k1, u1) (users (hub w)) -> In (k2, u2) (users (hub w)) ->
  u_ws u1 = u_ws u2 -> k1 = k2.
Proof.
  intros [Hreg Hinj] H1 H2 E.
  apply (Hinj k1 k2 (u_ws u1)); [now apply Hreg |].
  rewrite E. now apply Hreg.
Qed.

(** An event that is neither a [join] from [userId] nor the close of its
    connection leaves the entry of [userId] as it is. *)
Lemma fire_keeps_entry userId e w w' :
  fire e w = Some w' ->
  is_join_of userId e = false -> is_close_of userId e = false ->
  Map_get userId (users (hub w')) = Map_get userId (users (hub w)).
Proof.
  intros Hfire Hj Hc. rewrite (fire_users e w w' Hfire).
  destruct e as [k ws|k data mid now|k mid now|ws st]; try reflexivity.
  - destruct data as [[username|text|fd|t]|]; try reflexivity.
    cbn in Hj. apply String.eqb_neq in Hj.
    destruct (Map_get k (conns w)); [| reflexivity].
    now apply Map_get_set_ne.
  - cbn in Hc. apply String.eqb_neq in Hc. now apply Map_get_delete_ne.
Qed.

Lemma run_keeps_entry userId es :
  forall w w',
  run es w = Some w' ->
  existsb (is_join_of userId) es = false ->
  existsb (is_close_of userId) es = false ->
  Map_get userId (users (hub w')) = Map_get userId (users (hub w)).
Proof.
  induction es as [|e es IH]; intros w w' Hrun Hj Hc; cbn in *.
  - now injection Hrun as <-.
  - destruct (fire e w) as [w1|] eqn:E; [| discriminate].
    apply orb_false_elim in Hj as [Hj1 Hj2]. apply orb_false_elim in Hc as [Hc1 Hc2].
    rewrite (IH w1 w' Hrun Hj2 Hc2).
    exact (fire_keeps_entry userId e w w1 E Hj1 Hc1).
Qed.

(** Only its own [join] brings a connection into the registry. *)
Lemma fire_not_joined userId e w w' :
  fire e w = Some w' ->
  is_join_of userId e = false ->
  Map_get userId (users (hub w)) = None ->
  Map_get userId (users (hub w')) = None.
Proof.
  intros Hfire Hj Hnone.
  destruct (is_close_of userId e) eqn:Hc.
  - destruct e as [k ws|k data mid now|k mid now|ws st]; try discriminate.
    rewrite (fire_users _ w w' Hfire). cbn in Hc.
    apply String.eqb_eq in Hc. subst k. apply Map_get_delete_eq.
  - now rewrite (fire_keeps_entry userId e w w' Hfire Hj Hc).
Qed.

Lemma run_not_joined userId es :
  forall w w',
  run es w = Some w' ->
  existsb (is_join_of userId) es = false ->
  Map_get userId (users (hub w)) = None ->
  Map_get userId (users (hub w')) = None.
Proof.
  induction es as [|e es IH]; intros w w' Hrun Hj Hnone; cbn in *.
  - now injection Hrun as <-.
  - destruct (fire e w) as [w1|] eqn:E; [| discriminate].
    apply orb_false_elim in Hj as [Hj1 Hj2].
    exact (IH w1 w' Hrun Hj2 (fire_not_joined userId e w w1 E Hj1 Hnone)).
Qed.

(** Names come from [join] frames only. *)
Lemma run_names (P : string -> Prop) es :
  forall w w',
  run es w = Some w' ->
  (forall name, In name (join_names es) -> P name) ->
  (forall e, In e (users (hub w)) -> P (u_username (snd e))) ->
  forall e, In e (users (hub w')) -> P (u_username (snd e)).
Proof.
  induction es as [|ev es IH]; intros w w' Hrun Hnames Hw; cbn [run] in Hrun.
  - now injection Hrun as <-.
  - destruct (fire ev w) as [w1|] eqn:E; [| discriminate].
    apply (IH w1 w' Hrun).
    + intros name Hin. apply Hnames.
      destruct ev as [k ws|k [[username|text|fd|t]|] mid now|k mid now|ws st];
        cbn [join_names]; auto. now right.
    + intros [k u] Hin. rewrite (fire_users ev w w1 E) in Hin.
      destruct ev as [k0 ws|k0 [[username|text|fd|t]|] mid now|k0 mid now|ws st];
        try exact (Hw (k, u) Hin).
      * destruct (Map_get k0 (conns w)) as [ws|]; [| exact (Hw (k, u) Hin)].
        apply Map_set_In in Hin as [Eq | Hin]; [| exact (Hw (k, u) Hin)].
        injection Eq as -> ->. cbn. apply Hnames. cbn. now left.
      * apply Map_delete_In in Hin as [Hin _]. exact (Hw (k, u) Hin).
Qed.


End RunFacts.

(** * The claims *)

(** C1, as the code has it.  The server has no [InvalidName]: a [join] whose
    name is empty, or is white space only, is served like any other: the
    connection is registered under that name, and the system event
    "<name> joined the chat" is logged and sent to the open sockets.  Such a
    name is stopped before it reaches the server: the CLI client trims the
    answer to its prompt and sends no [join] frame when nothing is left. *)
Theorem blank_name_join `{Runtime} (answer : string) (ws : WebSocket)
    (userId mid now : string) (h : Hub) :
  trim answer = "" ->
  let joinMessage :=
    mkChatMessage mid "System" (answer +:+ " joined the chat") now TSystem in
  let h1 := set_users (Map_set userId (mkUser userId answer ws) (users h)) h in
  let h' := handleUserJoin ws userId answer mid now h in
  promptUsername answer = None
  /\ Map_get userId (users h') = Some (mkUser userId answer ws)
  /\ chatLog h' = chatLog h ++ [joinMessage]
  /\ outbox h'
     = outbox h
         ++ fanout (fun _ => true) (Message joinMessage) h1
         ++ [(ws, Joined (chatLog h ++ [joinMessage]) (userNames h1))]
         ++ fanout (fun _ => true) (UserList (userNames h1)) h1.
Proof.
  intros Hblank joinMessage h1 h'.
  split; [unfold promptUsername; now rewrite Hblank |].
  split; [unfold h'; rewrite handleUserJoin_users; apply Map_get_set_eq |].
  split; [apply handleUserJoin_chatLog | apply handleUserJoin_outbox].
Qed.



Lemma publish_all_chatLog `{Runtime} (ms : list ChatMessage) (h : Hub) :
  chatLog (publish_all ms h) = chatLog h ++ ms.
Proof.
  unfold publish_all. revert h.
  induction ms as [|m ms IH]; intros h; cbn [fold_left].
  - now rewrite app_nil_r.
  - rewrite IH, broadcastMessage_chatLog. now rewrite <- app_assoc.
Qed.

(** C3. After [N] calls of [publish] ([broadcastMessage]) on a log that was
    empty, the history has length [N] and holds the events in call order (on
    any log, the events are added at its end in call order).  Each call puts
    its event at the end of the log first, then hands the serialized event to
    the socket of every entry of the registry whose transport is open, and to
    no other. *)
Theorem publish_history `{Runtime} (ms : list ChatMessage) (h : Hub) :
  chatLog (publish_all ms h) = chatLog h ++ ms
  /\ chatLog (publish_all ms (set_chatLog [] h)) = ms
  /\ length (chatLog (publish_all ms (set_chatLog [] h))) = length ms
  /\ (forall m h0,
        broadcastMessage m h0
        = saveChatLog (broadcast (Message m) (set_chatLog (chatLog h0 ++ [m]) h0))
        /\ outbox (broadcastMessage m h0)
           = outbox h0 ++ fanout (fun _ => true) (Message m) h0
        /\ (forall ws f,
              In (ws, f) (fanout (fun _ => true) (Message m) h0) <->
              f = Message m /\
              exists userId u, In (userId, u) (users h0) /\ u_ws u = ws /\
                               is_open h0 ws = true)).
Proof.
  split; [apply publish_all_chatLog |].
  split; [now rewrite publish_all_chatLog |].
  split; [now rewrite publish_all_chatLog |].
  intros m h0.
  split; [reflexivity |].
  split; [apply broadcastMessage_outbox |].
  intros ws f. rewrite fanout_In. split.
  - intros [-> (k & u & Hin & _ & Hws & Ho)]. split; [reflexivity |]. now exists k, u.
  - intros [-> (k & u & Hin & Hws & Ho)]. split; [reflexivity |]. now exists k, u.
Qed.

(** C4. On a connection that has sent no [join] frame, a [message] frame and
    a [file] frame are ignored: the hub after the dispatch is the hub before
    it, so that no event is created, nothing is logged or written and
    nothing is sent. *)
Theorem frames_before_join_ignored `{Runtime} (es : list Event) (w : World)
    (userId : string) :
  run es new_world = Some w ->
  existsb (is_join_of userId) es = false ->
  forall ws mid now,
    (forall text, on_message ws userId (Some (Chat text)) mid now (hub w) = hub w)
    /\ (forall fd, on_message ws userId (Some (File fd)) mid now (hub w) = hub w)
    /\ (forall data w',
          (exists text, data = Chat text) \/ (exists fd, data = File fd) ->
          fire (Frame userId (Some data) mid now) w = Some w' -> w' = w).
Proof.
  intros Hrun Hj ws mid now.
  assert (Map_get userId (users (hub w)) = None) as Hnone
    by exact (run_not_joined userId es new_world w Hrun Hj eq_refl).
  assert (forall s text, on_message s userId (Some (Chat text)) mid now (hub w) = hub w)
    as Hchat.
  { intros s text. cbn. unfold handleChatMessage. now rewrite Hnone. }
  assert (forall s fd, on_message s userId (Some (File fd)) mid now (hub w) = hub w)
    as Hfile.
  { intros s fd. now apply on_message_unregistered. }
  split; [apply Hchat |]. split; [apply Hfile |].
  intros data w' Hdata Hfire. cbn [fire] in Hfire.
  destruct (Map_get userId (conns w)) as [s|]; [| discriminate].
  injection Hfire as <-.
  destruct Hdata as [[text ->] | [fd ->]];
    [pose proof (Hchat s text) as E | pose proof (Hfile s fd) as E];
    unfold on_message in E; rewrite E; now destruct w.
Qed.

(** C5. A [join] first publishes the system event "<name> joined the chat",
    then sends the [joined] frame, with the whole history and the current
    user list, to the joining socket and to no other, then broadcasts the
    user list.  The user list of the [joined] frame holds the name of every
    participant registered before, so that B joining after A is told of "A". *)
Theorem join_sequence `{Runtime} (ws : WebSocket) (userId username mid now : string)
    (h : Hub) :
  let joinMessage :=
    mkChatMessage mid "System" (username +:+ " joined the chat") now TSystem in
  let h1 := set_users (Map_set userId (mkUser userId username ws) (users h)) h in
  let h' := handleUserJoin ws userId username mid now h in
  chatLog h' = chatLog h ++ [joinMessage]
  /\ outbox h'
     = outbox h
         ++ fanout (fun _ => true) (Message joinMessage) h1
         ++ [(ws, Joined (chatLog h ++ [joinMessage]) (userNames h1))]
         ++ fanout (fun _ => true) (UserList (userNames h1)) h1
  /\ (forall ws' f,
        In (ws', f)
           (fanout (fun _ => true) (Message joinMessage) h1
              ++ [(ws, Joined (chatLog h ++ [joinMessage]) (userNames h1))]
              ++ fanout (fun _ => true) (UserList (userNames h1)) h1) ->
        is_Joined f = true -> ws' = ws)
  /\ In username (userNames h1)
  /\ (forall other u, Map_get other (users h) = Some u -> other <> userId ->
                      In (u_username u) (userNames h1)).
Proof.
  intros joinMessage h1 h'.
  split; [| split; [| split; [| split]]].
  - apply handleUserJoin_chatLog.
  - apply handleUserJoin_outbox.
  - intros ws' f Hin Hj.
    apply in_app_or in Hin as [Hin | Hin];
      [apply fanout_In in Hin as [-> _]; discriminate |].
    apply in_app_or in Hin as [[E | []] | Hin];
      [now injection E | apply fanout_In in Hin as [-> _]; discriminate].
  - unfold userNames, Map_values. rewrite map_map. apply in_map_iff.
    exists (userId, mkUser userId username ws). split; [reflexivity |].
    apply Map_get_In. apply Map_get_set_eq.
  - intros other u Hget Hne.
    unfold userNames, Map_values. rewrite map_map. apply in_map_iff.
    exists (other, u). split; [reflexivity |].
    apply Map_get_In. cbn [users h1 set_users].
    rewrite Map_get_set_ne by congruence. exact Hget.
Qed.

(** C6, as the code has it.  The close of the connection of a joined
    participant logs exactly one system event, "<name> left the chat", sends
    it to the open sockets, takes the participant's entry out of the registry
    and broadcasts the names that remain.  The name itself is absent from the
    list afterwards when no other entry of the registry bears it.  A second
    close for the same id changes nothing and sends nothing. *)
Theorem disconnect_joined `{Runtime} (userId : string) (user : User) (mid now : string)
    (h : Hub) :
  Map_get userId (users h) = Some user ->
  let leaveMessage :=
    mkChatMessage mid "System" (u_username user +:+ " left the chat") now TSystem in
  let h2 := set_users (Map_delete userId (users h)) h in
  let h' := handleUserDisconnect userId mid now h in
  chatLog h' = chatLog h ++ [leaveMessage]
  /\ outbox h'
     = outbox h
         ++ fanout (fun _ => true) (Message leaveMessage) h
         ++ fanout (fun _ => true) (UserList (userNames h2)) h2
  /\ Map_get userId (users h') = None
  /\ userNames h' = userNames h2
  /\ ((forall e, In e (users h) -> fst e <> userId ->
                 u_username (snd e) <> u_username user) ->
      ~ In (u_username user) (userNames h'))
  /\ (forall mid' now', handleUserDisconnect userId mid' now' h' = h').
Proof.
  intros Hu leaveMessage h2 h'.
  assert (users h' = Map_delete userId (users h)) as Hus
    by apply handleUserDisconnect_users.
  split; [now apply handleUserDisconnect_chatLog |].
  split; [now apply handleUserDisconnect_outbox |].
  split; [rewrite Hus; apply Map_get_delete_eq |].
  split; [unfold userNames; now rewrite Hus |].
  split.
  - intros Hothers Hin. unfold userNames, Map_values in Hin. rewrite Hus in Hin.
    rewrite map_map in Hin. apply in_map_iff in Hin as [e [Hname He]].
    apply Map_delete_In in He as [He Hne].
    exact (Hothers e He Hne Hname).
  - intros mid' now'. apply handleUserDisconnect_absent.
    rewrite Hus. apply Map_get_delete_eq.
Qed.


(** C8. Decoding, as the receive path does, the base64 text that the client
    made of a buffer gives the buffer back, byte for byte; the three bytes
    00 FF 10 come back as 00 FF 10.  A file sent with [/send] by a joined
    participant is therefore stored with the content it has on the client. *)
Theorem file_relay_roundtrip `{Runtime} (buf : list byte) :
  Buffer.from_base64 (Buffer.toString_base64 buf) = buf
  /\ Buffer.from_base64 (Buffer.toString_base64 [x00; xff; x10]) = [x00; xff; x10]
  /\ (forall (clientDisk : gmap string (list byte)) filepath username
             userId user mid now h,
        clientDisk !! filepath = Some buf ->
        Map_get userId (users h) = Some user ->
        exists fd,
          sendFile clientDisk filepath username = Some (File fd)
          /\ disk (handleFileTransfer userId fd mid now h)
               !! path_join "received" (filename fd) = Some buf).
Proof.
  split; [apply BufferFacts.from_base64_toString |].
  split; [apply BufferFacts.from_base64_toString |].
  intros clientDisk filepath username userId user mid now h Hfile Hu.
  unfold sendFile. rewrite Hfile. eexists. split; [reflexivity |].
  rewrite handleFileTransfer_disk with (user := user);
    [| assumption | apply path_join_received, basename_plain].
  cbn [fileData]. now rewrite BufferFacts.from_base64_toString.
Qed.


(** C9, as the code has it.  The display name of a joined participant is the
    name of the last [join] frame of its connection: the server turns down
    neither an empty name nor a second [join].  Nothing else changes it: over
    any run without a [join] from the connection and without its close, the
    entry stays as it is.  Names are not empty in a world reached through
    [join] frames with names that are not empty, and the CLI client sends no
    other ones. *)
Theorem display_name_set_by_join `{Runtime} (es : list Event) (w : World) :
  run es new_world = Some w ->
  (forall userId ws name mid now,
      Map_get userId (conns w) = Some ws ->
      exists w',
        fire (Frame userId (Some (Join name)) mid now) w = Some w'
        /\ Map_get userId (users (hub w')) = Some (mkUser userId name ws))
  /\ (forall es' w' userId,
        run es' w = Some w' ->
        existsb (is_join_of userId) es' = false ->
        existsb (is_close_of userId) es' = false ->
        Map_get userId (users (hub w')) = Map_get userId (users (hub w)))
  /\ ((forall name, In name (join_names es) -> name <> "") ->
      forall userId u, Map_get userId (users (hub w)) = Some u -> u_username u <> "")
  /\ (forall answer,
        match promptUsername answer with
        | Some frame => frame = Join (trim answer) /\ trim answer <> ""
        | None => trim answer = ""
        end).
Proof.
  intros Hrun.
  split.
  { intros userId ws name mid now Hc. eexists. split.
    - cbn [fire]. rewrite Hc. reflexivity.
    - cbn [hub]. rewrite on_message_users. apply Map_get_set_eq. }
  split; [intros es' w' userId; apply run_keeps_entry |].
  split.
  { intros Hnames userId u Hget.
    apply (run_names (fun name => name <> "") es new_world w Hrun Hnames
             ltac:(intros ? []) (userId, u)).
    now apply Map_get_In. }
  intros answer. unfold promptUsername.
  destruct (trim answer) eqn:E; [reflexivity |]. split; [reflexivity | discriminate].
Qed.


(** * The claims on the scenarios *)

(** ** Where the code departs from a claim *)

(** C1 fails on the server: a [join] with the name of two blanks, sent on
    A's fresh connection, is not turned down.  The event is logged and sent
    to A, and A is registered under that name. *)
Lemma blank_name_join_not_rejected :
  trim "  " = ""
  /\ chatLog (hub (world_after connects_A)) = []
  /\ chatLog (handleUserJoin (H := plain_host) 1 "idA" "  " "e1" "t1"
                (hub (world_after connects_A)))
     = [mkChatMessage "e1" "System" "   joined the chat" "t1" TSystem]
  /\ In (1, Message (mkChatMessage "e1" "System" "   joined the chat" "t1" TSystem))
        (outbox (handleUserJoin (H := plain_host) 1 "idA" "  " "e1" "t1"
                   (hub (world_after connects_A))))
  /\ Map_get "idA"
       (users (handleUserJoin (H := plain_host) 1 "idA" "  " "e1" "t1"
                 (hub (world_after connects_A))))
     = Some (mkUser "idA" "  " 1)
  /\ handleUserJoin (H := plain_host) 1 "idA" "  " "e1" "t1"
       (hub (world_after connects_A))
     <> hub (world_after connects_A).
Proof.
  split; [reflexivity |]. split; [reflexivity |]. split; [reflexivity |].
  split; [vm_compute; now left |]. split; [reflexivity |].
  intros E. apply (f_equal chatLog) in E. vm_compute in E. discriminate E.
Qed.




(** C6 fails on the list of names when a name is borne twice: with two
    participants called "Alice", the close of the connection of the first
    leaves "Alice" in the list. *)
Lemma namesake_stays_listed :
  run (H := plain_host) two_alices new_world = Some (world_after two_alices)
  /\ Map_get "idA" (users (hub (world_after two_alices)))
     = Some (mkUser "idA" "Alice" 1)
  /\ In "Alice"
        (userNames (handleUserDisconnect (H := plain_host) "idA" "e3" "t3"
                      (hub (world_after two_alices)))).
Proof.
  split; [reflexivity |]. split; [reflexivity |]. vm_compute. now left.
Qed.

(** C9 fails on both counts: A, joined as "A", sends a second [join] with
    the empty name; the name of A's entry changes, and is empty. *)
Lemma rejoin_changes_name :
  run (H := plain_host) joins_A new_world = Some (world_after joins_A)
  /\ Map_get "idA" (users (hub (world_after joins_A))) = Some (mkUser "idA" "A" 1)
  /\ fire (H := plain_host) (Frame "idA" (Some (Join "")) "e2" "t2") (world_after joins_A)
     = Some (world_after joins_twice)
  /\ Map_get "idA" (users (hub (world_after joins_twice))) = Some (mkUser "idA" "" 1).
Proof.
  split; [reflexivity |]. split; [reflexivity |].
  split; [vm_compute; reflexivity | reflexivity].
Qed.



(** ** The claims at work *)

(** C1 on the two blanks that A answers to the prompt. *)
Lemma blank_name_join_witness :
  trim "  " = ""
  /\ promptUsername "  " = None
  /\ Map_get "idA"
       (users (handleUserJoin (H := plain_host) 1 "idA" "  " "e1" "t1"
                 (hub (world_after connects_A))))
     = Some (mkUser "idA" "  " 1).
Proof.
  split; [reflexivity |].
  pose proof (@blank_name_join plain_host "  " 1 "idA" "e1" "t1"
                (hub (world_after connects_A)) eq_refl) as W.
  cbv zeta in W. exact (conj (proj1 W) (proj1 (proj2 W))).
Defined.


(** C3 on two chat events published on an emptied log. *)
Lemma publish_history_witness :
  chatLog (publish_all (H := plain_host)
             [mkChatMessage "e3" "A" "hi" "t3" TMessage;
              mkChatMessage "e4" "B" "ho" "t4" TMessage]
             (set_chatLog [] (hub (world_after joins_A_B))))
  = [mkChatMessage "e3" "A" "hi" "t3" TMessage;
     mkChatMessage "e4" "B" "ho" "t4" TMessage].
Proof.
  exact (proj1 (proj2 (@publish_history plain_host
                         [mkChatMessage "e3" "A" "hi" "t3" TMessage;
                          mkChatMessage "e4" "B" "ho" "t4" TMessage]
                         (hub (world_after joins_A_B))))).
Defined.

(** C4 on B, who has connected and not joined. *)
Lemma frames_before_join_ignored_witness :
  run (H := plain_host) joins_A_connects_B new_world
  = Some (world_after joins_A_connects_B)
  /\ existsb (is_join_of "idB") joins_A_connects_B = false
  /\ on_message (H := plain_host) 2 "idB" (Some (Chat "hi")) "e2" "t2"
       (hub (world_after joins_A_connects_B))
     = hub (world_after joins_A_connects_B)
  /\ on_message (H := plain_host) 2 "idB" (Some (File report_transfer)) "e2" "t2"
       (hub (world_after joins_A_connects_B))
     = hub (world_after joins_A_connects_B).
Proof.
  split; [reflexivity |]. split; [reflexivity |].
  pose proof (@frames_before_join_ignored plain_host joins_A_connects_B
                (world_after joins_A_connects_B) "idB" eq_refl eq_refl
                2 "e2" "t2") as [Wchat [Wfile _]].
  exact (conj (Wchat "hi") (Wfile report_transfer)).
Defined.

(** C5 when B joins after A: the user list of B's [joined] frame has "A". *)
Lemma join_sequence_witness :
  Map_get "idA" (users (hub (world_after joins_A_connects_B)))
  = Some (mkUser "idA" "A" 1)
  /\ "idA" <> "idB"
  /\ In "A"
        (userNames
           (set_users
              (Map_set "idB" (mkUser "idB" "B" 2)
                 (users (hub (world_after joins_A_connects_B))))
              (hub (world_after joins_A_connects_B)))).
Proof.
  assert ("idA" <> "idB") as Hne by discriminate.
  split; [reflexivity |]. split; [exact Hne |].
  pose proof (@join_sequence plain_host 2 "idB" "B" "e2" "t2"
                (hub (world_after joins_A_connects_B))) as W.
  cbv zeta in W.
  exact (proj2 (proj2 (proj2 (proj2 W))) "idA" (mkUser "idA" "A" 1) eq_refl Hne).
Defined.

(** C6 on Alice, the only participant. *)
Lemma disconnect_joined_witness :
  Map_get "idA" (users (hub (world_after alice_alone)))
  = Some (mkUser "idA" "Alice" 1)
  /\ chatLog (handleUserDisconnect (H := plain_host) "idA" "e2" "t2"
                (hub (world_after alice_alone)))
     = chatLog (hub (world_after alice_alone))
         ++ [mkChatMessage "e2" "System" "Alice left the chat" "t2" TSystem]
  /\ ~ In "Alice"
         (userNames (handleUserDisconnect (H := plain_host) "idA" "e2" "t2"
                       (hub (world_after alice_alone)))).
Proof.
  split; [reflexivity |].
  pose proof (@disconnect_joined plain_host "idA" (mkUser "idA" "Alice" 1) "e2" "t2"
                (hub (world_after alice_alone)) eq_refl) as W.
  cbv zeta in W. destruct W as [Wlog [_ [_ [_ [Wname _]]]]].
  split; [exact Wlog |].
  apply Wname. intros e [<- | []] Hne. now destruct Hne.
Defined.


(** C8 on [report.pdf], from the disk of A to the disk of the server. *)
Lemma file_relay_roundtrip_witness :
  disk_of_A !! "/home/a/report.pdf" = Some report_pdf
  /\ Map_get "idA" (users (hub (world_after joins_A_B))) = Some (mkUser "idA" "A" 1)
  /\ exists fd,
       sendFile disk_of_A "/home/a/report.pdf" "A" = Some (File fd)
       /\ disk (handleFileTransfer (H := plain_host) "idA" fd "e3" "t3"
                  (hub (world_after joins_A_B)))
            !! path_join "received" (filename fd)
          = Some report_pdf.
Proof.
  split; [reflexivity |]. split; [reflexivity |].
  exact (proj2 (proj2 (@file_relay_roundtrip plain_host report_pdf))
           disk_of_A "/home/a/report.pdf" "A" "idA" (mkUser "idA" "A" 1) "e3" "t3"
           (hub (world_after joins_A_B)) eq_refl eq_refl).
Defined.

(** C9 after A and B have joined under names that are not empty. *)
Lemma display_name_set_by_join_witness :
  run (H := plain_host) joins_A_B new_world = Some (world_after joins_A_B)
  /\ (forall name, In name (join_names joins_A_B) -> name <> "")
  /\ (forall userId u,
        Map_get userId (users (hub (world_after joins_A_B))) = Some u ->
        u_username u <> "").
Proof.
  assert (forall name, In name (join_names joins_A_B) -> name <> "") as Hnames
    by (intros name [<- | [<- | []]]; discriminate).
  split; [reflexivity |]. split; [exact Hnames |].
  exact (proj1 (proj2 (proj2
           (@display_name_set_by_join plain_host joins_A_B (world_after joins_A_B)
              eq_refl))) Hnames).
Defined.


(** * Beyond the claims *)

(** ** The registry along a run *)

Section RegistryFacts.
Context `{Runtime}.

Lemma Map_set_length {V} (k : string) (v : V) (m : Map V) :
  length (Map_set k v m)
  = match Map_get k m with
    | Some _ => length m
    | None => S (length m)
    end.
Proof.
  induction m as [|[k0 v0] m IH]; cbn; [reflexivity |].
  destruct (String.eqb k0 k); cbn; [reflexivity |].
  rewrite IH. now destruct (Map_get k m).
Qed.

Lemma Map_delete_length {V} (k : string) (m : Map V) :
  List.NoDup (Map_keys m) ->
  match Map_get k m with
  | Some _ => S (length (Map_delete k m)) = length m
  | None => length (Map_delete k m) = length m
  end.
Proof.
  unfold Map_delete.
  induction m as [|[k0 v0] m IH]; cbn; intros Hnd; [reflexivity |].
  apply List.NoDup_cons_iff in Hnd as [Hk Hnd].
  destruct (String.eqb k0 k) eqn:E; cbn.
  - apply String.eqb_eq in E. subst k0. f_equal.
    assert (Map_get k m = None) as Hnone.
    { destruct (Map_get k m) as [v|] eqn:G; [| reflexivity].
      exfalso. apply Hk. unfold Map_keys. apply in_map_iff.
      exists (k, v). split; [reflexivity | now apply Map_get_In]. }
    pose proof (Map_delete_absent k m Hnone) as D. unfold Map_delete in D.
    now rewrite D.
  - specialize (IH Hnd). destruct (Map_get k m); lia.
Qed.

Lemma Map_set_absent {V} (k : string) (v : V) (m : Map V) :
  Map_get k m = None -> Map_set k v m = m ++ [(k, v)].
Proof.
  induction m as [|[k0 v0] m IH]; cbn; [reflexivity |].
  destruct (String.eqb k0 k); [discriminate |].
  intros Hm. now rewrite (IH Hm).
Qed.

Lemma Map_get_keys {V} (k : string) (v : V) (m : Map V) :
  Map_get k m = Some v -> In k (Map_keys m).
Proof.
  intros Hget. unfold Map_keys. apply in_map_iff.
  exists (k, v). split; [reflexivity | now apply Map_get_In].
Qed.

Lemma well_formed_new : well_formed new_world.
Proof. repeat split; try constructor. intros ? ? []. Qed.

Lemma well_formed_fire e w w' : well_formed w -> fire e w = Some w' -> well_formed w'.
Proof.
  intros (Hu & Hc & Hid) Hfire. pose proof (fire_users e w w' Hfire) as Hus.
  unfold well_formed. rewrite Hus.
  destruct e as [userId ws|userId data mid now|userId mid now|ws st]; cbn [fire] in Hfire.
  - destruct (Map_get userId (conns w)); [discriminate |].
    destruct (existsb _ _); [discriminate |].
    injection Hfire as <-. cbn [hub conns].
    split; [exact Hu |]. split; [now apply Map_set_NoDup | exact Hid].
  - destruct (Map_get userId (conns w)) as [ws|]; [| discriminate].
    injection Hfire as <-. cbn [hub conns].
    destruct data as [[username|text|fd|t]|]; try (split; [exact Hu | split; assumption]).
    split; [now apply Map_set_NoDup |]. split; [exact Hc |].
    intros k u Hin. apply Map_set_In in Hin as [E | Hin]; [| now apply Hid].
    now injection E as -> ->.
  - destruct (Map_get userId (conns w)) as [ws|]; [| discriminate].
    injection Hfire as <-. cbn [hub conns].
    split; [now apply Map_delete_NoDup |]. split; [now apply Map_delete_NoDup |].
    intros k u Hin. apply Map_delete_In in Hin as [Hin _]. now apply Hid.
  - injection Hfire as <-. cbn [hub conns]. split; [exact Hu | split; assumption].
Qed.

Lemma well_formed_run es w : run es new_world = Some w -> well_formed w.
Proof.
  apply (run_invariant well_formed).
  - intros e w0 w1. apply well_formed_fire.
  - apply well_formed_new.
Qed.

End RegistryFacts.

(** X1. In every world the server reaches, the registry has one entry per
    connection id, each entry is filed under its own id and holds the socket
    of a live connection, no two entries share a socket, and the user count
    of [/api/health] never exceeds the number of live connections. *)
Theorem registry_invariant `{Runtime} (es : list Event) (w : World) :
  run es new_world = Some w ->
  List.NoDup (Map_keys (users (hub w)))
  /\ (forall k u, In (k, u) (users (hub w)) ->
        u_id u = k
        /\ Map_get k (users (hub w)) = Some u
        /\ Map_get k (conns w) = Some (u_ws u))
  /\ (forall k1 k2 u1 u2,
        In (k1, u1) (users (hub w)) -> In (k2, u2) (users (hub w)) ->
        u_ws u1 = u_ws u2 -> k1 = k2)
  /\ (h_users (api_health (hub w)) <= length (conns w))%nat.
Proof.
  intros Hrun.
  destruct (well_formed_run es w Hrun) as (Hu & Hc & Hid).
  pose proof (consistent_run es w Hrun) as Hcons.
  split; [exact Hu |].
  split.
  { intros k u Hin. split; [now apply Hid |].
    split; [now apply In_Map_get | now apply (proj1 Hcons)]. }
  split.
  { intros k1 k2 u1 u2 H1 H2 E. exact (sockets_apart w k1 k2 u1 u2 Hcons H1 H2 E). }
  cbn [api_health h_users].
  rewrite <- (length_map fst (users (hub w))), <- (length_map fst (conns w)).
  apply NoDup_incl_length; [exact Hu |].
  intros k Hk. apply in_map_iff in Hk as [[k0 u] [E Hin]]. cbn in E. subst k0.
  exact (Map_get_keys k (u_ws u) (conns w) (proj1 Hcons k u Hin)).
Qed.

(** ** The log, the counters and the log file *)

Section LogFacts.
Context `{Runtime}.

Lemma broadcast_disk data h : disk (broadcast data h) = disk h.
Proof. now rewrite broadcast_eq. Qed.

Lemma broadcast_sockets data h : sockets (broadcast data h) = sockets h.
Proof. now rewrite broadcast_eq. Qed.

Lemma broadcastMessage_disk_eq m h :
  disk (broadcastMessage m h)
  = <["chatlog.txt" := list_byte_of_string (logContent (chatLog h ++ [m]))]> (disk h).
Proof. unfold broadcastMessage. now rewrite broadcast_eq. Qed.

Lemma handleUserJoin_disk ws userId username mid now h :
  disk (handleUserJoin ws userId username mid now h)
  = disk (broadcastMessage
            (mkChatMessage mid "System" (username +:+ " joined the chat") now TSystem)
            (set_users (Map_set userId (mkUser userId username ws) (users h)) h)).
Proof.
  unfold handleUserJoin, broadcastUserList. now rewrite broadcast_disk.
Qed.

Lemma handleUserJoin_sockets ws userId username mid now h :
  sockets (handleUserJoin ws userId username mid now h) = sockets h.
Proof.
  unfold handleUserJoin, broadcastUserList. rewrite broadcast_sockets.
  unfold ws_send. cbn [sockets set_outbox]. now rewrite broadcastMessage_sockets.
Qed.

Lemma handleChatMessage_sockets userId text mid now h :
  sockets (handleChatMessage userId text mid now h) = sockets h.
Proof.
  unfold handleChatMessage. destruct (Map_get userId (users h)); [| reflexivity].
  apply broadcastMessage_sockets.
Qed.

Lemma handleUserDisconnect_sockets userId mid now h :
  sockets (handleUserDisconnect userId mid now h) = sockets h.
Proof.
  unfold handleUserDisconnect. destruct (Map_get userId (users h)); [| reflexivity].
  unfold broadcastUserList. rewrite broadcast_sockets. cbn [sockets set_users].
  apply broadcastMessage_sockets.
Qed.

Lemma handleUserDisconnect_disk userId user mid now h :
  Map_get userId (users h) = Some user ->
  disk (handleUserDisconnect userId mid now h)
  = disk (broadcastMessage
            (mkChatMessage mid "System" (u_username user +:+ " left the chat") now TSystem)
            h).
Proof.
  intros Hu. unfold handleUserDisconnect. rewrite Hu.
  unfold broadcastUserList. now rewrite broadcast_disk.
Qed.

Lemma handleFileTransfer_disk_eq userId user fd mid now h :
  Map_get userId (users h) = Some user ->
  disk (handleFileTransfer userId fd mid now h)
  = disk (broadcastMessage
            (mkChatMessage mid (u_username user)
               ("📎 Shared file: " +:+ filename fd +:+ " (" +:+
                formatFileSize (fileSize fd) +:+ ")")
               now TFile)
            (writeFileSync (path_join "received" (filename fd))
               (Buffer.from_base64 (fileData fd)) h)).
Proof.
  intros Hu. unfold handleFileTransfer. rewrite Hu.
  now rewrite broadcastToOthers_eq.
Qed.

(** The log after one event. *)
Lemma fire_chatLog e w w' :
  fire e w = Some w' ->
  exists added,
    chatLog (hub w') = chatLog (hub w) ++ added
    /\ length added = (if logs e w then 1 else 0)%nat.
Proof.
  destruct e as [userId ws|userId data mid now|userId mid now|ws st]; cbn [fire logs].
  - destruct (Map_get userId (conns w)); [discriminate |].
    destruct (existsb _ _); [discriminate |]. intros [= <-].
    exists []. now rewrite app_nil_r.
  - destruct (Map_get userId (conns w)) as [ws|]; [| discriminate].
    intros [= <-]. cbn [hub]. unfold registered.
    destruct data as [[username|text|fd|t]|]; cbn [on_message handleWebSocketMessage throws].
    + eexists. split; [apply handleUserJoin_chatLog | reflexivity].
    + unfold handleChatMessage. destruct (Map_get userId (users (hub w))).
      * eexists. split; [apply broadcastMessage_chatLog | reflexivity].
      * exists []. now rewrite app_nil_r.
    + destruct (Map_get userId (users (hub w))) as [user|] eqn:Hu.
      * destruct (writable (path_join "received" (filename fd))); cbn [negb andb].
        -- eexists. split;
             [exact (handleFileTransfer_chatLog userId user fd mid now _ Hu) | reflexivity].
        -- exists []. now rewrite app_nil_r.
      * unfold handleFileTransfer. rewrite Hu. exists []. now rewrite app_nil_r.
    + exists []. now rewrite app_nil_r.
    + exists []. now rewrite app_nil_r.
  - destruct (Map_get userId (conns w)) as [ws|]; [| discriminate].
    intros [= <-]. cbn [hub]. unfold registered.
    destruct (Map_get userId (users (hub w))) as [user|] eqn:Hu.
    + eexists. split;
        [exact (handleUserDisconnect_chatLog userId user mid now
                  (set_readyState ws CLOSED (hub w)) Hu) | reflexivity].
    + rewrite (handleUserDisconnect_absent userId mid now
                 (set_readyState ws CLOSED (hub w)) Hu).
      exists []. now rewrite app_nil_r.
  - intros [= <-]. exists []. now rewrite app_nil_r.
Qed.

(** The log file after one event: rewritten from the whole log when the
    event is logged, and otherwise the disk is left alone. *)
Lemma fire_log_file e w w' :
  fire e w = Some w' ->
  if logs e w
  then disk (hub w') !! "chatlog.txt"
       = Some (list_byte_of_string (logContent (chatLog (hub w'))))
  else disk (hub w') = disk (hub w).
Proof.
  destruct e as [userId ws|userId data mid now|userId mid now|ws st]; cbn [fire logs].
  - destruct (Map_get userId (conns w)); [discriminate |].
    destruct (existsb _ _); [discriminate |]. now intros [= <-].
  - destruct (Map_get userId (conns w)) as [ws|]; [| discriminate].
    intros [= <-]. cbn [hub]. unfold registered.
    destruct data as [[username|text|fd|t]|]; cbn [on_message handleWebSocketMessage throws];
      try reflexivity.
    + rewrite handleUserJoin_disk, handleUserJoin_chatLog, broadcastMessage_disk_eq.
      apply lookup_insert_eq.
    + unfold handleChatMessage. destruct (Map_get userId (users (hub w))); [| reflexivity].
      rewrite broadcastMessage_disk_eq, broadcastMessage_chatLog.
      apply lookup_insert_eq.
    + destruct (Map_get userId (users (hub w))) as [user|] eqn:Hu.
      * destruct (writable (path_join "received" (filename fd))); cbn [negb andb];
          [| reflexivity].
        rewrite handleFileTransfer_disk_eq with (user := user) by exact Hu.
        rewrite handleFileTransfer_chatLog with (user := user) by exact Hu.
        rewrite broadcastMessage_disk_eq. apply lookup_insert_eq.
      * unfold handleFileTransfer. now rewrite Hu.
  - destruct (Map_get userId (conns w)) as [ws|]; [| discriminate].
    intros [= <-]. cbn [hub]. unfold registered.
    change (users (hub w)) with (users (set_readyState ws CLOSED (hub w))).
    destruct (Map_get userId (users (set_readyState ws CLOSED (hub w)))) as [user|] eqn:Hu.
    + rewrite handleUserDisconnect_disk with (user := user) by exact Hu.
      rewrite handleUserDisconnect_chatLog with (user := user) by exact Hu.
      rewrite broadcastMessage_disk_eq. apply lookup_insert_eq.
    + now rewrite handleUserDisconnect_absent by exact Hu.
  - now intros [= <-].
Qed.

End LogFacts.

(** X2. One event of the transport changes the counters of [/api/health] by
    at most one: the message count goes up by one exactly when the event is a
    [join], a [message] frame of a registered connection, a [file] frame of
    a registered connection whose write returns, or the close of a
    registered connection; the user count goes up by one for the [join] of a
    connection that was not registered, down by one for the close of a
    registered one, and a second [join] of the same connection adds no
    entry.  The history only grows at its end.  A [file] frame whose write
    throws, such as one without a file name, leaves both counters as they
    are. *)
Theorem health_counters `{Runtime} (es : list Event) (w : World) (e : Event)
    (w' : World) :
  run es new_world = Some w ->
  fire e w = Some w' ->
  (exists added, api_chat_history (hub w') = api_chat_history (hub w) ++ added)
  /\ h_messages (api_health (hub w'))
     = (h_messages (api_health (hub w)) + (if logs e w then 1 else 0))%nat
  /\ (h_users (api_health (hub w')) + (if leaves e w then 1 else 0))%nat
     = (h_users (api_health (hub w)) + (if enters e w then 1 else 0))%nat
  /\ (forall userId fd mid now,
        e = Frame userId (Some (File fd)) mid now ->
        (writable (path_join "received" (filename fd)) = false \/ filename fd = "") ->
        logs e w = false /\ api_health (hub w') = api_health (hub w)).
Proof.
  intros Hrun Hfire.
  destruct (fire_chatLog e w w' Hfire) as [added [Hlog Hlen]].
  split; [now exists added |].
  split; [cbn [api_health h_messages]; rewrite Hlog, length_app; lia |].
  split.
  { cbn [api_health h_users]. rewrite (fire_users e w w' Hfire).
    destruct (well_formed_run es w Hrun) as (Hnd & _ & _).
    destruct e as [userId ws|userId data mid now|userId mid now|ws st];
      cbn [leaves enters]; try lia.
    - destruct data as [[username|text|fd|t]|]; try lia.
      cbn [fire] in Hfire.
      destruct (Map_get userId (conns w)) as [ws|]; [| discriminate].
      rewrite Map_set_length. unfold registered.
      destruct (Map_get userId (users (hub w))); cbn [negb]; lia.
    - pose proof (Map_delete_length userId (users (hub w)) Hnd) as Hdel.
      unfold registered. destruct (Map_get userId (users (hub w))); lia. }
  intros userId fd mid now -> Hthrows.
  assert (writable (path_join "received" (filename fd)) = false) as Hw.
  { destruct Hthrows as [Hw | Hname]; [exact Hw |].
    rewrite Hname. exact received_is_directory. }
  assert (logs (Frame userId (Some (File fd)) mid now) w = false) as Hl
    by (cbn [logs]; rewrite Hw; apply andb_false_r).
  split; [exact Hl |].
  rewrite Hl in Hlen. destruct added; [| discriminate Hlen].
  rewrite app_nil_r in Hlog. unfold api_health.
  rewrite Hlog, (fire_users _ w w' Hfire). reflexivity.
Qed.

(** X3. Along a run of a server that started with an empty log, the file
    [chatlog.txt] is the whole log, one line per event, as [saveChatLog]
    formats it, as soon as one event has been logged; as long as nothing has
    been logged the server has written no file since it started. *)
Theorem chat_log_file_mirrors_log `{Runtime} (es : list Event) (w0 w : World) :
  chatLog (hub w0) = [] ->
  run es w0 = Some w ->
  match chatLog (hub w) with
  | [] => disk (hub w) = disk (hub w0)
  | _ :: _ =>
      disk (hub w) !! "chatlog.txt"
      = Some (list_byte_of_string (logContent (chatLog (hub w))))
  end.
Proof.
  intros Hstart.
  apply (run_invariant
           (fun w => match chatLog (hub w) with
                     | [] => disk (hub w) = disk (hub w0)
                     | _ :: _ =>
                         disk (hub w) !! "chatlog.txt"
                         = Some (list_byte_of_string (logContent (chatLog (hub w))))
                     end)); [| now rewrite Hstart].
  intros e w1 w2 Hinv Hfire.
  pose proof (fire_log_file e w1 w2 Hfire) as Hfile.
  destruct (fire_chatLog e w1 w2 Hfire) as [added [Hlog Hlen]].
  destruct (logs e w1).
  - destruct added as [|m [|m' added]]; try discriminate Hlen.
    rewrite Hlog in *. destruct (chatLog (hub w1)); exact Hfile.
  - destruct added; [| discriminate Hlen]. rewrite app_nil_r in Hlog.
    now rewrite Hlog, Hfile.
Qed.

(** ** What is sent, and to whom *)

Section SendFacts.
Context `{Runtime}.

Lemma is_open_ext (h h' : Hub) ws : sockets h = sockets h' -> is_open h ws = is_open h' ws.
Proof. intros E. unfold is_open, readyState. now rewrite E. Qed.

Lemma handleChatMessage_outbox userId user text mid now h :
  Map_get userId (users h) = Some user ->
  outbox (handleChatMessage userId text mid now h)
  = outbox h
      ++ fanout (fun _ => true)
           (Message (mkChatMessage mid (u_username user) text now TMessage)) h.
Proof.
  intros Hu. unfold handleChatMessage. rewrite Hu. apply broadcastMessage_outbox.
Qed.

Lemma handleChatMessage_chatLog userId user text mid now h :
  Map_get userId (users h) = Some user ->
  chatLog (handleChatMessage userId text mid now h)
  = chatLog h ++ [mkChatMessage mid (u_username user) text now TMessage].
Proof.
  intros Hu. unfold handleChatMessage. rewrite Hu. apply broadcastMessage_chatLog.
Qed.

(** Who a fan-out reaches. *)
Lemma fanout_recipient keep data h (after : Hub) (c : Map WebSocket) ws f :
  (forall k u, In (k, u) (users h) -> Map_get k c = Some (u_ws u)) ->
  sockets after = sockets h ->
  In (ws, f) (fanout keep data h) ->
  (exists k, Map_get k c = Some ws)
  /\ (is_Joined f = true \/ is_open after ws = true).
Proof.
  intros Hc Hs Hin. apply fanout_In in Hin as [_ (k & u & Hk & _ & Hws & Ho)].
  split.
  - exists k. rewrite <- Hws. now apply Hc.
  - right. now rewrite (is_open_ext after h ws Hs).
Qed.

Lemma fire_conns_frame userId data mid now w w' :
  fire (Frame userId data mid now) w = Some w' -> conns w' = conns w.
Proof.
  cbn [fire]. destruct (Map_get userId (conns w)); [| discriminate].
  now intros [= <-].
Qed.

End SendFacts.

(** X4. Whatever an event makes the server send is added at the end of what
    was sent before, goes to the socket of a live connection, and, but for
    the [joined] frame that answers a [join], goes to a socket that is open:
    a fan-out never writes to a socket that is connecting, closing or
    closed. *)
Theorem frames_go_to_open_sockets `{Runtime} (es : list Event) (w : World)
    (e : Event) (w' : World) :
  run es new_world = Some w ->
  fire e w = Some w' ->
  exists new,
    outbox (hub w') = outbox (hub w) ++ new
    /\ forall ws f, In (ws, f) new ->
         (exists k, Map_get k (conns w) = Some ws)
         /\ (is_Joined f = true \/ is_open (hub w') ws = true).
Proof.
  intros Hrun Hfire.
  pose proof (consistent_run es w Hrun) as Hcons.
  pose proof (consistent_fire e w w' Hcons Hfire) as Hcons'.
  pose proof (fire_users e w w' Hfire) as Hus.
  destruct e as [userId ws0|userId data mid now|userId mid now|ws0 st].
  - cbn [fire] in Hfire. destruct (Map_get userId (conns w)); [discriminate |].
    destruct (existsb _ _); [discriminate |]. injection Hfire as <-.
    exists []. split; [now rewrite app_nil_r | intros ? ? []].
  - pose proof (fire_conns_frame _ _ _ _ _ _ Hfire) as Hconns.
    cbn [fire] in Hfire.
    destruct (Map_get userId (conns w)) as [ws0|] eqn:Hc; [| discriminate].
    injection Hfire as <-. cbn [hub conns] in *.
    destruct data as [[username|text|fd|t]|];
      cbn [on_message handleWebSocketMessage throws] in *.
    + eexists. split; [apply handleUserJoin_outbox |].
      try rewrite Hc in Hus.
      set (h1 := set_users _ (hub w)).
      assert (forall k u, In (k, u) (users h1) -> Map_get k (conns w) = Some (u_ws u))
        as Hreg.
      { intros k u Hin. apply (proj1 Hcons'). cbn [hub conns]. now rewrite Hus. }
      assert (sockets (handleUserJoin ws0 userId username mid now (hub w)) = sockets h1)
        as Hs by (rewrite handleUserJoin_sockets; reflexivity).
      intros ws f Hin.
      apply in_app_or in Hin as [Hin | Hin];
        [exact (fanout_recipient _ _ h1 _ _ ws f Hreg Hs Hin) |].
      apply in_app_or in Hin as [[E | []] | Hin];
        [| exact (fanout_recipient _ _ h1 _ _ ws f Hreg Hs Hin)].
      injection E as <- <-. split; [now exists userId | now left].
    + destruct (Map_get userId (users (hub w))) as [user|] eqn:Hu.
      * eexists. split;
          [exact (handleChatMessage_outbox userId user text mid now (hub w) Hu) |].
        intros ws f Hin.
        apply (fanout_recipient _ _ (hub w) _ _ ws f (proj1 Hcons)
                 (handleChatMessage_sockets _ _ _ _ _) Hin).
      * unfold handleChatMessage. rewrite Hu.
        exists []. split; [now rewrite app_nil_r | intros ? ? []].
    + destruct (Map_get userId (users (hub w))) as [user|] eqn:Hu.
      * destruct (writable (path_join "received" (filename fd))); cbn [negb] in *;
          [| exists []; split; [now rewrite app_nil_r | intros ? ? []]].
        eexists. split;
          [exact (handleFileTransfer_outbox userId user fd mid now (hub w) Hu) |].
        intros ws f Hin.
        apply in_app_or in Hin as [Hin | Hin];
          apply (fanout_recipient _ _ (hub w) _ _ ws f (proj1 Hcons)
                   (handleFileTransfer_sockets _ _ _ _ _) Hin).
      * unfold handleFileTransfer. rewrite Hu.
        exists []. split; [now rewrite app_nil_r | intros ? ? []].
    + exists []. split; [now rewrite app_nil_r | intros ? ? []].
    + exists []. split; [now rewrite app_nil_r | intros ? ? []].
  - cbn [fire] in Hfire.
    destruct (Map_get userId (conns w)) as [ws0|] eqn:Hc; [| discriminate].
    injection Hfire as <-. cbn [hub conns] in *.
    set (hs := set_readyState ws0 CLOSED (hub w)) in *.
    destruct (Map_get userId (users hs)) as [user|] eqn:Hu.
    + eexists. split; [exact (handleUserDisconnect_outbox userId user mid now hs Hu) |].
      intros ws f Hin.
      apply in_app_or in Hin as [Hin | Hin].
      * apply (fanout_recipient _ _ hs _ _ ws f (proj1 Hcons)
                 (handleUserDisconnect_sockets _ _ _ _) Hin).
      * assert (sockets (handleUserDisconnect userId mid now hs)
                = sockets (set_users (Map_delete userId (users hs)) hs)) as Hs
          by (rewrite handleUserDisconnect_sockets; reflexivity).
        refine (fanout_recipient _ _ _ _ _ ws f _ Hs Hin).
        intros k u Hk. cbn [users set_users] in Hk.
        apply Map_delete_In in Hk as [Hk _]. now apply (proj1 Hcons).
    + rewrite (handleUserDisconnect_absent userId mid now hs Hu).
      exists []. split; [now rewrite app_nil_r | intros ? ? []].
  - cbn [fire] in Hfire. injection Hfire as <-.
    exists []. split; [now rewrite app_nil_r | intros ? ? []].
Qed.

(** X5. A [message] frame of a joined participant is logged as a chat event
    of kind "message" under the name the participant is registered with, and
    is sent to the socket of every registered participant whose transport is
    open, the sender included; the registry and the sockets stay as they
    are. *)
Theorem chat_message_delivery `{Runtime} (userId : string) (user : User)
    (text mid now : string) (h : Hub) :
  Map_get userId (users h) = Some user ->
  let chatMessage := mkChatMessage mid (u_username user) text now TMessage in
  let h' := handleChatMessage userId text mid now h in
  chatLog h' = chatLog h ++ [chatMessage]
  /\ outbox h' = outbox h ++ fanout (fun _ => true) (Message chatMessage) h
  /\ (forall k u, Map_get k (users h) = Some u -> is_open h (u_ws u) = true ->
                  In (u_ws u, Message chatMessage)
                     (fanout (fun _ => true) (Message chatMessage) h))
  /\ users h' = users h
  /\ sockets h' = sockets h.
Proof.
  intros Hu chatMessage h'.
  split; [now apply handleChatMessage_chatLog |].
  split; [now apply handleChatMessage_outbox |].
  split.
  { intros k u Hk Ho. apply fanout_In. split; [reflexivity |].
    exists k, u. split; [now apply Map_get_In | now repeat split]. }
  split; [apply handleChatMessage_users | apply handleChatMessage_sockets].
Qed.

(** X6. After a [join], and after the close of a joined participant, the
    last thing sent is the user list as it is after the change, the one that
    [/api/users] now answers, and it goes to every participant that is
    registered after the change and whose transport is open. *)
Theorem user_list_is_current `{Runtime} (ws : WebSocket) (userId username mid now : string)
    (h : Hub) :
  (let h' := handleUserJoin ws userId username mid now h in
   exists before,
     outbox h' = outbox h ++ before ++ fanout (fun _ => true) (UserList (api_users h')) h'
     /\ forall k u, Map_get k (users h') = Some u -> is_open h' (u_ws u) = true ->
          In (u_ws u, UserList (api_users h'))
             (fanout (fun _ => true) (UserList (api_users h')) h'))
  /\ (forall user, Map_get userId (users h) = Some user ->
      let h' := handleUserDisconnect userId mid now h in
      exists before,
        outbox h' = outbox h ++ before ++ fanout (fun _ => true) (UserList (api_users h')) h'
        /\ forall k u, Map_get k (users h') = Some u -> is_open h' (u_ws u) = true ->
             In (u_ws u, UserList (api_users h'))
                (fanout (fun _ => true) (UserList (api_users h')) h')).
Proof.
  assert (forall h' : Hub, forall k u,
            Map_get k (users h') = Some u -> is_open h' (u_ws u) = true ->
            In (u_ws u, UserList (api_users h'))
               (fanout (fun _ => true) (UserList (api_users h')) h')) as Hall.
  { intros h' k u Hk Ho. apply fanout_In. split; [reflexivity |].
    exists k, u. split; [now apply Map_get_In | now repeat split]. }
  split.
  - intros h'.
    set (joinMessage :=
           mkChatMessage mid "System" (username +:+ " joined the chat") now TSystem).
    set (h1 := set_users (Map_set userId (mkUser userId username ws) (users h)) h).
    exists (fanout (fun _ => true) (Message joinMessage) h1
              ++ [(ws, Joined (chatLog h ++ [joinMessage]) (userNames h1))]).
    split; [| apply Hall].
    assert (api_users h' = userNames h1) as ->
      by (unfold h', api_users, userNames; now rewrite handleUserJoin_users).
    unfold h'. rewrite handleUserJoin_outbox. fold joinMessage. fold h1.
    rewrite <- !app_assoc. do 3 f_equal.
    apply fanout_ext;
      [now rewrite handleUserJoin_users | now rewrite handleUserJoin_sockets].
  - intros user Hu h'.
    set (leaveMessage :=
           mkChatMessage mid "System" (u_username user +:+ " left the chat") now TSystem).
    set (h2 := set_users (Map_delete userId (users h)) h).
    exists (fanout (fun _ => true) (Message leaveMessage) h).
    split; [| apply Hall].
    assert (api_users h' = userNames h2) as ->
      by (unfold h', api_users, userNames; now rewrite handleUserDisconnect_users).
    unfold h'. rewrite (handleUserDisconnect_outbox userId user mid now h Hu).
    fold leaveMessage. fold h2. do 2 f_equal.
    apply fanout_ext;
      [now rewrite handleUserDisconnect_users | now rewrite handleUserDisconnect_sockets].
Qed.

(** X7. A participant whose socket is open gets its own [join] event twice:
    once as the [message] frame that is broadcast, and once more as the last
    entry of the history in its [joined] frame, which is sent after it. *)
Theorem own_join_event_sent_twice `{Runtime} (ws : WebSocket)
    (userId username mid now : string) (h : Hub) :
  is_open h ws = true ->
  let joinMessage :=
    mkChatMessage mid "System" (username +:+ " joined the chat") now TSystem in
  let h' := handleUserJoin ws userId username mid now h in
  exists before between after names,
    outbox h'
    = outbox h ++ before ++ [(ws, Message joinMessage)] ++ between
        ++ [(ws, Joined (chatLog h ++ [joinMessage]) names)] ++ after.
Proof.
  intros Ho joinMessage h'. unfold h'. rewrite handleUserJoin_outbox.
  fold joinMessage. set (h1 := set_users _ h).
  assert (In (ws, Message joinMessage) (fanout (fun _ => true) (Message joinMessage) h1))
    as Hin.
  { apply fanout_In. split; [reflexivity |].
    exists userId, (mkUser userId username ws).
    split; [apply Map_get_In, Map_get_set_eq | now repeat split]. }
  apply in_split in Hin as [before [between Hsplit]].
  exists before, between, (fanout (fun _ => true) (UserList (userNames h1)) h1),
    (userNames h1).
  rewrite Hsplit. now rewrite <- !app_assoc.
Qed.

(** ** The received files *)

Section FileFacts.
Context `{Runtime}.




End FileFacts.



(** ** From one client to another *)

Section RelayFacts.
Context `{Runtime}.

Lemma inbox_app ws o1 o2 : inbox ws (o1 ++ o2) = inbox ws o1 ++ inbox ws o2.
Proof. unfold inbox. now rewrite List.filter_app, map_app. Qed.

Lemma inbox_fanout ws keep data h f :
  In f (inbox ws (fanout keep data h)) -> f = data.
Proof.
  unfold inbox. intros Hin. apply in_map_iff in Hin as [[s g] [E Hin]].
  cbn in E. subst g. apply filter_In in Hin as [Hin _].
  now apply fanout_In in Hin as [-> _].
Qed.




End RelayFacts.


(** ** The CLI client *)

Section ClientFacts.



Lemma append_cons c (s w : string) : String c s +:+ w = String c (s +:+ w).
Proof. reflexivity. Qed.

(** Induction on texts by their length, for functions that look several
    characters ahead. *)
Lemma string_length_ind (P : string -> Prop) :
  (forall s, (forall t, (String.length t < String.length s)%nat -> P t) -> P s) ->
  forall s, P s.
Proof.
  intros Hstep s.
  assert (forall n t, (String.length t < n)%nat -> P t) as Hall.
  { induction n as [|n IH]; intros t Ht; [lia |].
    apply Hstep. intros u Hu. apply IH. lia. }
  apply (Hall (S (String.length s))). lia.
Qed.

(** What [trimStart] leaves does not start with white space. *)
Lemma trimStart_head (s : string) : starts_with_space (trimStart s) = false.
Proof.
  induction s as [s IH] using string_length_ind.
  destruct s as [|c0 r0]; [reflexivity |]. cbn [trimStart].
  destruct (is_space c0) eqn:H0; [apply IH; cbn; lia |].
  destruct r0 as [|c1 r1]; [cbn [starts_with_space]; now rewrite H0 |].
  destruct (is_space2 c0 c1) eqn:H1; [apply IH; cbn; lia |].
  destruct r1 as [|c2 r2]; [cbn [starts_with_space]; now rewrite H0, H1 |].
  destruct (is_space3 c0 c1 c2) eqn:H2; [apply IH; cbn; lia |].
  cbn [starts_with_space]. now rewrite H0, H1, H2.
Qed.

(** A text that does not start with white space is left as it is. *)
Lemma trimStart_fixed (s : string) : starts_with_space s = false -> trimStart s = s.
Proof.
  destruct s as [|c0 r0]; [reflexivity |]. cbn [starts_with_space trimStart].
  intros Hs. apply orb_false_elim in Hs as [H0 Hs]. rewrite H0.
  destruct r0 as [|c1 r1]; [reflexivity |].
  apply orb_false_elim in Hs as [H1 Hs]. rewrite H1.
  destruct r1 as [|c2 r2]; [reflexivity |]. now rewrite Hs.
Qed.

(** White space at the start of a text is at the start of every text that
    continues it. *)
Lemma starts_with_space_app (p w : string) :
  starts_with_space p = true -> starts_with_space (p +:+ w) = true.
Proof.
  destruct p as [|c0 r0]; [discriminate |].
  rewrite append_cons. cbn [starts_with_space].
  destruct (is_space c0); [reflexivity |]. cbn [orb].
  destruct r0 as [|c1 r1]; [discriminate |].
  rewrite append_cons.
  destruct (is_space2 c0 c1); [reflexivity |]. cbn [orb].
  destruct r1 as [|c2 r2]; [discriminate |].
  now rewrite append_cons.
Qed.

(** White space in front of a text is skipped. *)
Lemma trimStart_app (p w : string) :
  trimStart p = "" -> trimStart (p +:+ w) = trimStart w.
Proof.
  induction p as [p IH] using string_length_ind.
  destruct p as [|c0 r0]; [reflexivity |].
  rewrite append_cons. cbn [trimStart].
  destruct (is_space c0); [intros Hp; apply IH; [cbn; lia | exact Hp] |].
  destruct r0 as [|c1 r1]; [discriminate |].
  rewrite append_cons.
  destruct (is_space2 c0 c1); [intros Hp; apply IH; [cbn; lia | exact Hp] |].
  destruct r1 as [|c2 r2]; [discriminate |].
  rewrite append_cons.
  destruct (is_space3 c0 c1 c2); [intros Hp; apply IH; [cbn; lia | exact Hp] |].
  discriminate.
Qed.

Lemma trimEnd_cons c (s : string) :
  trimEnd (String c s)
  = match trimStart (String c s) with
    | EmptyString => EmptyString
    | _ => String c (trimEnd s)
    end.
Proof. reflexivity. Qed.

(** [trimEnd] cuts off white space and nothing else. *)
Lemma trimEnd_app (s : string) : exists w, s = trimEnd s +:+ w /\ trimStart w = "".
Proof.
  induction s as [|c s (w & Hs & Hw)]; [now exists "" |].
  rewrite trimEnd_cons. destruct (trimStart (String c s)) as [|d r] eqn:E.
  - now exists (String c s).
  - exists w. split; [| exact Hw]. rewrite append_cons. now rewrite <- Hs.
Qed.

Lemma trimEnd_idempotent (s : string) : trimEnd (trimEnd s) = trimEnd s.
Proof.
  induction s as [|c s IH]; [reflexivity |].
  rewrite trimEnd_cons. destruct (trimStart (String c s)) as [|d r] eqn:E; [reflexivity |].
  rewrite trimEnd_cons.
  destruct (trimStart (String c (trimEnd s))) as [|d' r'] eqn:E'; [| now rewrite IH].
  destruct (trimEnd_app s) as (w & Hs & Hw).
  pose proof (trimStart_app (String c (trimEnd s)) w E') as Happ.
  rewrite append_cons, <- Hs, Hw in Happ. rewrite Happ in E. discriminate E.
Qed.

(** What [trim] leaves has no white space at either end. *)
Lemma trim_head (s : string) : starts_with_space (trim s) = false.
Proof.
  unfold trim. destruct (trimEnd_app (trimStart s)) as (w & Hs & _).
  destruct (starts_with_space (trimEnd (trimStart s))) eqn:E; [| reflexivity].
  pose proof (starts_with_space_app _ w E) as Happ.
  rewrite <- Hs, trimStart_head in Happ. discriminate Happ.
Qed.

Lemma trim_idempotent (s : string) : trim (trim s) = trim s.
Proof.
  unfold trim at 1. rewrite (trimStart_fixed (trim s) (trim_head s)).
  unfold trim. apply trimEnd_idempotent.
Qed.

(** A text of white space only is trimmed to nothing. *)
Lemma trim_blank (s : string) : trimStart s = "" -> trim s = "".
Proof. intros Hs. unfold trim. now rewrite Hs. Qed.

Lemma split_space_nonempty (s : string) : split_space s <> [].
Proof.
  induction s as [|c s IH]; cbn [split_space]; [discriminate |].
  destruct (Ascii.eqb c " "%char); [discriminate |].
  now destruct (split_space s).
Qed.

Lemma concat_cons (sep x : string) (xs : list string) :
  xs <> [] -> String.concat sep (x :: xs) = x +:+ sep +:+ String.concat sep xs.
Proof. now destruct xs. Qed.

Lemma concat_head (sep : string) c (x : string) (xs : list string) :
  String.concat sep (String c x :: xs) = String c (String.concat sep (x :: xs)).
Proof. now destruct xs. Qed.

(** Joining the pieces of a split with blanks gives the text back. *)
Lemma join_split_space (s : string) : join_space (split_space s) = s.
Proof.
  unfold join_space. induction s as [|c s IH]; [reflexivity |].
  cbn [split_space]. destruct (Ascii.eqb_spec c " "%char) as [-> | Hc].
  - rewrite concat_cons by apply split_space_nonempty. now rewrite IH.
  - pose proof (split_space_nonempty s) as Hne.
    destruct (split_space s) as [|piece pieces]; [contradiction |].
    rewrite concat_head. now rewrite IH.
Qed.

Lemma has_space_cons c s :
  has_space (String c s) = Ascii.eqb " "%char c || has_space s.
Proof. reflexivity. Qed.

Lemma split_space_command (cmd rest : string) :
  has_space cmd = false ->
  split_space (cmd +:+ " " +:+ rest) = cmd :: split_space rest.
Proof.
  induction cmd as [|c cmd IH]; intros Hcmd.
  - reflexivity.
  - rewrite has_space_cons in Hcmd. apply orb_false_elim in Hcmd as [Hc Hcmd].
    change (String c cmd +:+ " " +:+ rest) with (String c (cmd +:+ " " +:+ rest)).
    cbn [split_space]. rewrite Ascii.eqb_sym, Hc. now rewrite (IH Hcmd).
Qed.

Lemma split_space_word (cmd : string) : has_space cmd = false -> split_space cmd = [cmd].
Proof.
  induction cmd as [|c cmd IH]; intros Hcmd; [reflexivity |].
  rewrite has_space_cons in Hcmd. apply orb_false_elim in Hcmd as [Hc Hcmd].
  cbn [split_space]. rewrite Ascii.eqb_sym, Hc. now rewrite (IH Hcmd).
Qed.

End ClientFacts.


(** X12. What the CLI client sends is trimmed and never empty: the name of a
    [join] frame and the text of a [message] frame are the line without the
    white space at its two ends, Unicode white space included; they are left
    unchanged by a further trim, do not start with white space and are not
    empty; a line of white space only sends nothing; and a line that starts
    with a slash is never sent as a chat message. *)
Theorem client_sends_trimmed_text (line : string) :
  trim (trim line) = trim line
  /\ starts_with_space (trim line) = false
  /\ trimEnd (trim line) = trim line
  /\ (forall frame, promptUsername line = Some frame ->
        exists name, frame = Join name /\ name <> "" /\ name = trim line)
  /\ (forall frame, chatLine line = Say frame ->
        exists text, frame = Chat text /\ text <> "" /\ text = trim line
                     /\ startsWith_slash text = false)
  /\ (trimStart line = "" ->
        trim line = "" /\ promptUsername line = None /\ chatLine line = Ignore).
Proof.
  split; [apply trim_idempotent |].
  split; [apply trim_head |].
  split; [unfold trim; apply trimEnd_idempotent |].
  split.
  { intros frame. unfold promptUsername.
    destruct (trim line) as [|c r] eqn:E; [discriminate |].
    intros [= <-]. exists (String c r). split; [reflexivity |].
    split; [discriminate | reflexivity]. }
  split.
  { intros frame. unfold chatLine, handleInput.
    destruct (startsWith_slash (trim line)) eqn:Hs; [discriminate |].
    destruct (trim line) as [|c r] eqn:E; [discriminate |].
    cbn. intros [= <-]. exists (String c r). split; [reflexivity |].
    split; [discriminate |]. split; [reflexivity | exact Hs]. }
  intros Hblank. pose proof (trim_blank line Hblank) as E.
  unfold promptUsername, chatLine. rewrite E. now repeat split.
Qed.

(** X13. [/send] and [/file], in any letter case, pass on the whole rest of
    the line as the path, blanks included, because the pieces of the split
    are joined again with blanks; without anything after the command the
    client only prints the usage. *)
Theorem send_command_keeps_path (cmd path : string) :
  has_space cmd = false ->
  toLowerCase cmd = "/send" \/ toLowerCase cmd = "/file" ->
  handleCommand (cmd +:+ " " +:+ path) = DoSendFile path
  /\ handleCommand cmd = Usage.
Proof.
  intros Hcmd Hlow. unfold handleCommand.
  rewrite (split_space_command cmd path Hcmd), (split_space_word cmd Hcmd).
  pose proof (split_space_nonempty path) as Hne.
  pose proof (join_split_space path) as Hjoin.
  destruct (split_space path) as [|piece pieces]; [contradiction |].
  destruct Hlow as [-> | ->]; cbn -[join_space]; now rewrite Hjoin.
Qed.

(** ** Joins in a row *)

Lemma join_all_users `{Runtime} (joins : list JoinRequest) :
  forall h,
  List.NoDup (map j_userId joins) ->
  (forall j, In j joins -> Map_get (j_userId j) (users h) = None) ->
  users (join_all joins h)
  = users h ++ map (fun j => (j_userId j, mkUser (j_userId j) (j_username j) (j_ws j))) joins.
Proof.
  unfold join_all.
  induction joins as [|j joins IH]; intros h Hnd Hfresh; cbn [fold_left map].
  - now rewrite app_nil_r.
  - apply List.NoDup_cons_iff in Hnd as [Hj Hnd].
    rewrite IH; [| exact Hnd |].
    + rewrite handleUserJoin_users.
      rewrite Map_set_absent by (apply Hfresh; now left).
      now rewrite <- app_assoc.
    + intros j' Hin. rewrite handleUserJoin_users.
      rewrite Map_get_set_ne; [apply Hfresh; now right |].
      intros E. apply Hj. rewrite E. now apply in_map.
Qed.

(** X14. After [join] requests from connections with distinct ids, none of
    them registered before, the user list is the list before followed by the
    names asked for, in the order of the requests; on a server that has just
    started it is exactly those names.  The names need not differ. *)
Theorem joins_fill_user_list `{Runtime} (joins : list JoinRequest) (h : Hub) :
  List.NoDup (map j_userId joins) ->
  (forall j, In j joins -> Map_get (j_userId j) (users h) = None) ->
  api_users (join_all joins h) = api_users h ++ map j_username joins
  /\ (users h = [] -> api_users (join_all joins h) = map j_username joins)
  /\ h_users (api_health (join_all joins h))
     = (h_users (api_health h) + length joins)%nat.
Proof.
  intros Hnd Hfresh.
  pose proof (join_all_users joins h Hnd Hfresh) as Hus.
  assert (api_users (join_all joins h) = api_users h ++ map j_username joins) as Hnames.
  { unfold api_users, Map_values. rewrite Hus, !map_app, !map_map. reflexivity. }
  split; [exact Hnames |].
  split.
  - intros Hempty. rewrite Hnames. unfold api_users. now rewrite Hempty.
  - cbn [api_health h_users]. now rewrite Hus, length_app, length_map.
Qed.

(** ** The size of a transfer *)

Section SizeFacts.





End SizeFacts.


(** ** The order of delivery *)

Section OrderFacts.
Context `{Runtime}.

Lemma delivered_app ws o1 o2 :
  delivered ws (o1 ++ o2) = delivered ws o1 ++ delivered ws o2.
Proof. unfold delivered. now rewrite inbox_app, flat_map_app. Qed.

Lemma filter_none {A} (f : A -> bool) (l : list A) :
  (forall x, In x l -> f x = false) -> List.filter f l = [].
Proof.
  induction l as [|x l IH]; intros Hall; [reflexivity |].
  cbn. rewrite (Hall x (or_introl eq_refl)). apply IH.
  intros y Hy. apply Hall. now right.
Qed.

(** In a registry with one entry per key and one socket per entry, a fan-out
    sends a socket one frame at most. *)
Lemma inbox_fanout_once ws keep data (h : Hub) :
  List.NoDup (Map_keys (users h)) ->
  (forall k1 k2 u1 u2, In (k1, u1) (users h) -> In (k2, u2) (users h) ->
                       u_ws u1 = u_ws u2 -> k1 = k2) ->
  inbox ws (fanout keep data h) = [] \/ inbox ws (fanout keep data h) = [data].
Proof.
  unfold inbox, fanout. generalize (users h) as l.
  induction l as [|[k u] l IH]; intros Hnd Hinj; [now left |].
  apply List.NoDup_cons_iff in Hnd as [Hk Hnd].
  assert (forall k1 k2 u1 u2, In (k1, u1) l -> In (k2, u2) l ->
                              u_ws u1 = u_ws u2 -> k1 = k2) as Hinj'.
  { intros k1 k2 u1 u2 H1 H2. apply Hinj; now right. }
  specialize (IH Hnd Hinj').
  cbn [List.filter fst snd].
  destruct (keep k && is_open h (u_ws u)); [| exact IH].
  cbn [map List.filter fst snd].
  destruct (Nat.eqb_spec (u_ws u) ws) as [E | _]; [| exact IH].
  right. cbn [map snd]. f_equal.
  change (map snd
            (List.filter (fun e => Nat.eqb (fst e) ws)
               (map (fun e => (u_ws (snd e), data))
                  (List.filter (fun e => keep (fst e) && is_open h (u_ws (snd e))) l)))
          = []).
  rewrite filter_none; [reflexivity |].
  intros [s f] Hin. cbn. apply Nat.eqb_neq. intros ->.
  apply in_map_iff in Hin as [[k2 u2] [E2 Hin]]. cbn in E2. injection E2 as E2 _.
  apply filter_In in Hin as [Hin _].
  apply Hk. unfold Map_keys. apply in_map_iff. exists (k2, u2).
  split; [| exact Hin]. cbn.
  symmetry. apply (Hinj k k2 u u2); [now left | now right | congruence].
Qed.

Lemma delivered_fanout_message ws keep m (h : Hub) :
  List.NoDup (Map_keys (users h)) ->
  (forall k1 k2 u1 u2, In (k1, u1) (users h) -> In (k2, u2) (users h) ->
                       u_ws u1 = u_ws u2 -> k1 = k2) ->
  delivered ws (fanout keep (Message m) h) `sublist_of` [m].
Proof.
  intros Hnd Hinj. unfold delivered.
  destruct (inbox_fanout_once ws keep (Message m) h Hnd Hinj) as [-> | ->].
  - apply sublist_nil_l.
  - reflexivity.
Qed.

Lemma delivered_fanout_other ws keep data (h : Hub) :
  (forall m, data <> Message m) -> delivered ws (fanout keep data h) = [].
Proof.
  intros Hdata. unfold delivered.
  assert (forall f, In f (inbox ws (fanout keep data h)) -> f = data) as Hall
    by (intros f; apply inbox_fanout).
  induction (inbox ws (fanout keep data h)) as [|f fs IH]; [reflexivity |].
  cbn. rewrite (Hall f (or_introl eq_refl)).
  destruct data as [| m | |]; try (apply IH; intros g Hg; apply Hall; now right).
  now destruct (Hdata m).
Qed.

Lemma delivered_joined ws ws0 hist names : delivered ws [(ws0, Joined hist names)] = [].
Proof. unfold delivered, inbox. cbn. now destruct (Nat.eqb ws0 ws). Qed.

(** The chat events that one event logs, and those it sends to a socket. *)
Lemma fire_delivered es w e w' ws :
  run es new_world = Some w ->
  fire e w = Some w' ->
  exists added sent,
    chatLog (hub w') = chatLog (hub w) ++ added
    /\ delivered ws (outbox (hub w')) = delivered ws (outbox (hub w)) ++ sent
    /\ sent `sublist_of` added.
Proof.
  intros Hrun Hfire.
  pose proof (registry_facts := well_formed_run es w Hrun).
  pose proof (consistent_run es w Hrun) as Hcons.
  pose proof (well_formed_fire e w w' registry_facts Hfire) as Hwf'.
  pose proof (consistent_fire e w w' Hcons Hfire) as Hcons'.
  pose proof (fire_users e w w' Hfire) as Hus.
  assert (exists added sent : list ChatMessage,
            chatLog (hub w) = chatLog (hub w) ++ added
            /\ delivered ws (outbox (hub w)) = delivered ws (outbox (hub w)) ++ sent
            /\ sent `sublist_of` added) as Hsame
    by (exists [], []; now rewrite !app_nil_r).
  destruct e as [userId ws0|userId data mid now|userId mid now|ws0 st]; cbn [fire] in Hfire.
  - destruct (Map_get userId (conns w)); [discriminate |].
    destruct (existsb _ _); [discriminate |]. injection Hfire as <-. exact Hsame.
  - destruct (Map_get userId (conns w)) as [ws0|] eqn:Hc; [| discriminate].
    injection Hfire as <-. cbn [hub conns] in *.
    destruct data as [[username|text|fd|t]|];
      cbn [on_message handleWebSocketMessage throws] in *; try exact Hsame.
    + set (h1 := set_users (Map_set userId (mkUser userId username ws0) (users (hub w)))
                   (hub w)).
      assert (users h1 = users (handleUserJoin ws0 userId username mid now (hub w)))
        as Hh1 by (now rewrite Hus).
      set (joinMessage :=
             mkChatMessage mid "System" (username +:+ " joined the chat") now TSystem).
      exists [joinMessage],
        (delivered ws (fanout (fun _ => true) (Message joinMessage) h1)).
      split; [apply handleUserJoin_chatLog |].
      split.
      * rewrite handleUserJoin_outbox. fold h1. fold joinMessage.
        rewrite !delivered_app.
        rewrite delivered_joined, (delivered_fanout_other ws _ (UserList _) h1)
          by discriminate.
        now rewrite !app_nil_r.
      * apply delivered_fanout_message; rewrite Hh1.
        -- exact (proj1 Hwf').
        -- intros k1 k2 u1 u2. apply (sockets_apart _ k1 k2 u1 u2 Hcons').
    + destruct (Map_get userId (users (hub w))) as [user|] eqn:Hu.
      * set (m := mkChatMessage mid (u_username user) text now TMessage).
        exists [m], (delivered ws (fanout (fun _ => true) (Message m) (hub w))).
        split; [exact (handleChatMessage_chatLog userId user text mid now _ Hu) |].
        split.
        -- rewrite (handleChatMessage_outbox userId user text mid now _ Hu).
           now rewrite delivered_app.
        -- apply delivered_fanout_message; [exact (proj1 registry_facts) |].
           intros k1 k2 u1 u2. apply (sockets_apart _ k1 k2 u1 u2 Hcons).
      * unfold handleChatMessage. rewrite Hu. exact Hsame.
    + destruct (Map_get userId (users (hub w))) as [user|] eqn:Hu.
      * destruct (writable (path_join "received" (filename fd))); cbn [negb] in *;
          [| exact Hsame].
        set (m := mkChatMessage mid (u_username user)
                    ("📎 Shared file: " +:+ filename fd +:+ " (" +:+
                     formatFileSize (fileSize fd) +:+ ")")
                    now TFile).
        exists [m], (delivered ws (fanout (fun _ => true) (Message m) (hub w))).
        split; [exact (handleFileTransfer_chatLog userId user fd mid now _ Hu) |].
        split.
        -- rewrite (handleFileTransfer_outbox userId user fd mid now _ Hu).
           fold m. rewrite !delivered_app.
           rewrite (delivered_fanout_other ws _ (FileReceived _ _ _ _ _) (hub w))
             by discriminate.
           now rewrite app_nil_r.
        -- apply delivered_fanout_message; [exact (proj1 registry_facts) |].
           intros k1 k2 u1 u2. apply (sockets_apart _ k1 k2 u1 u2 Hcons).
      * unfold handleFileTransfer. rewrite Hu. exact Hsame.
  - destruct (Map_get userId (conns w)) as [ws0|] eqn:Hc; [| discriminate].
    injection Hfire as <-. cbn [hub conns] in *.
    set (hs := set_readyState ws0 CLOSED (hub w)) in *.
    destruct (Map_get userId (users hs)) as [user|] eqn:Hu.
    + set (m := mkChatMessage mid "System" (u_username user +:+ " left the chat")
                  now TSystem).
      exists [m], (delivered ws (fanout (fun _ => true) (Message m) hs)).
      split; [exact (handleUserDisconnect_chatLog userId user mid now hs Hu) |].
      split.
      * rewrite (handleUserDisconnect_outbox userId user mid now hs Hu).
        fold m. rewrite !delivered_app.
        rewrite (delivered_fanout_other ws _ (UserList _) _) by discriminate.
        now rewrite app_nil_r.
      * apply delivered_fanout_message; [exact (proj1 registry_facts) |].
        intros k1 k2 u1 u2. apply (sockets_apart _ k1 k2 u1 u2 Hcons).
    + rewrite (handleUserDisconnect_absent userId mid now hs Hu). exact Hsame.
  - injection Hfire as <-. exact Hsame.
Qed.

End OrderFacts.

(** X16. In every world the server reaches, the chat events sent to a socket
    as [message] frames are, in the order sent, events of the log in the
    order of the log, each sent once at most: no socket is sent an event out
    of order or twice. *)
Theorem delivery_follows_log `{Runtime} (es : list Event) (w : World) (ws : WebSocket) :
  run es new_world = Some w ->
  delivered ws (outbox (hub w)) `sublist_of` chatLog (hub w).
Proof.
  revert w. induction es as [|e es IH] using rev_ind; intros w Hrun.
  - injection Hrun as <-. reflexivity.
  - assert (exists w0, run es new_world = Some w0 /\ fire e w0 = Some w) as [w0 [H0 Hfire]].
    { clear IH. revert Hrun. generalize new_world as v.
      induction es as [|e0 es IH0]; intros v Hrun; cbn [run app] in *.
      - destruct (fire e v) as [v1|] eqn:E; [| discriminate].
        injection Hrun as <-. now exists v.
      - destruct (fire e0 v) as [v1|]; [| discriminate]. exact (IH0 v1 Hrun). }
    destruct (fire_delivered es w0 e w ws H0 Hfire) as (added & sent & Hlog & Hsent & Hsub).
    rewrite Hlog, Hsent. apply sublist_app; [now apply IH | exact Hsub].
Qed.

(** X17. An event that is not logged is silent: a frame that is not parsed,
    a frame of unknown type, a [message] or [file] frame of a connection that
    is not registered, a [file] frame whose write throws, the close of a
    connection that is not registered, a new connection or a change of a
    socket's state leave the registry, the log, the disk and what has been
    sent as they are.  Nothing is ever sent without an event being logged. *)
Theorem unlogged_event_is_silent `{Runtime} (e : Event) (w w' : World) :
  fire e w = Some w' ->
  logs e w = false ->
  users (hub w') = users (hub w)
  /\ chatLog (hub w') = chatLog (hub w)
  /\ disk (hub w') = disk (hub w)
  /\ outbox (hub w') = outbox (hub w).
Proof.
  intros Hfire Hlogs.
  destruct e as [userId ws|userId data mid now|userId mid now|ws st];
    cbn [fire logs] in *.
  - destruct (Map_get userId (conns w)); [discriminate |].
    destruct (existsb _ _); [discriminate |]. now injection Hfire as <-.
  - destruct (Map_get userId (conns w)) as [ws|]; [| discriminate].
    injection Hfire as <-. cbn [hub]. unfold registered in Hlogs.
    destruct data as [[username|text|fd|t]|];
      cbn [on_message handleWebSocketMessage throws];
      try discriminate; try (now repeat split).
    + unfold handleChatMessage.
      destruct (Map_get userId (users (hub w))); [discriminate | now repeat split].
    + unfold handleFileTransfer.
      destruct (Map_get userId (users (hub w))); [| now repeat split].
      cbn [andb] in Hlogs. rewrite Hlogs. now repeat split.
  - destruct (Map_get userId (conns w)) as [ws|]; [| discriminate].
    injection Hfire as <-. cbn [hub]. unfold registered in Hlogs.
    set (hs := set_readyState ws CLOSED (hub w)).
    assert (Map_get userId (users hs) = None) as Hu
      by (cbn [hs users set_readyState set_sockets];
          destruct (Map_get userId (users (hub w))); [discriminate | reflexivity]).
    rewrite (handleUserDisconnect_absent userId mid now hs Hu). now repeat split.
  - injection Hfire as <-. now repeat split.
Qed.

(** ** Beyond the claims, on the scenarios *)

(** X1 once A and B have joined: two users, two connections. *)
Lemma registry_invariant_witness :
  run (H := plain_host) joins_A_B new_world = Some (world_after joins_A_B)
  /\ (h_users (api_health (hub (world_after joins_A_B)))
      <= length (conns (world_after joins_A_B)))%nat.
Proof.
  split; [reflexivity |].
  exact (proj2 (proj2 (proj2
           (@registry_invariant plain_host joins_A_B (world_after joins_A_B) eq_refl)))).
Defined.

(** X2 when A says "hi": one more message, as many users; and when A sends
    a file without a name: nothing more. *)
Lemma health_counters_witness :
  fire (H := plain_host) chat_from_A (world_after joins_A_B)
  = Some (world_after (joins_A_B ++ [chat_from_A]))
  /\ h_messages (api_health (hub (world_after (joins_A_B ++ [chat_from_A]))))
     = (h_messages (api_health (hub (world_after joins_A_B))) + 1)%nat
  /\ fire (H := plain_host) nameless_upload (world_after joins_A_B)
     = Some (world_after (joins_A_B ++ [nameless_upload]))
  /\ api_health (hub (world_after (joins_A_B ++ [nameless_upload])))
     = api_health (hub (world_after joins_A_B)).
Proof.
  assert (fire (H := plain_host) chat_from_A (world_after joins_A_B)
          = Some (world_after (joins_A_B ++ [chat_from_A]))) as Hfire
    by (vm_compute; reflexivity).
  assert (fire (H := plain_host) nameless_upload (world_after joins_A_B)
          = Some (world_after (joins_A_B ++ [nameless_upload]))) as Hdrop
    by (vm_compute; reflexivity).
  split; [exact Hfire |].
  split.
  - exact (proj1 (proj2
             (@health_counters plain_host joins_A_B (world_after joins_A_B) chat_from_A
                (world_after (joins_A_B ++ [chat_from_A])) eq_refl Hfire))).
  - split; [exact Hdrop |].
    exact (proj2 (proj2 (proj2 (proj2
             (@health_counters plain_host joins_A_B (world_after joins_A_B)
                nameless_upload (world_after (joins_A_B ++ [nameless_upload]))
                eq_refl Hdrop)))
             "idA" nameless_transfer "e3" "t3" eq_refl (or_intror eq_refl))).
Defined.

(** X3 once A has joined: the log file holds the one line of the log. *)
Lemma chat_log_file_mirrors_log_witness :
  chatLog (hub new_world) = []
  /\ disk (hub (world_after joins_A)) !! "chatlog.txt"
     = Some (list_byte_of_string "[t1] System: A joined the chat").
Proof.
  split; [reflexivity |].
  exact (@chat_log_file_mirrors_log plain_host joins_A new_world (world_after joins_A)
           eq_refl eq_refl).
Defined.

(** X4 when A says "hi". *)
Lemma frames_go_to_open_sockets_witness :
  exists new,
    outbox (hub (world_after (joins_A_B ++ [chat_from_A])))
    = outbox (hub (world_after joins_A_B)) ++ new
    /\ forall ws f, In (ws, f) new ->
         (exists k, Map_get k (conns (world_after joins_A_B)) = Some ws)
         /\ (is_Joined f = true
             \/ is_open (hub (world_after (joins_A_B ++ [chat_from_A]))) ws = true).
Proof.
  apply (@frames_go_to_open_sockets plain_host joins_A_B (world_after joins_A_B)
           chat_from_A (world_after (joins_A_B ++ [chat_from_A])));
    vm_compute; reflexivity.
Defined.

(** X5 when A says "hi": B is sent the event, and so is A. *)
Lemma chat_message_delivery_witness :
  Map_get "idA" (users (hub (world_after joins_A_B))) = Some (mkUser "idA" "A" 1)
  /\ In (2, Message (mkChatMessage "e3" "A" "hi" "t3" TMessage))
        (fanout (fun _ => true) (Message (mkChatMessage "e3" "A" "hi" "t3" TMessage))
           (hub (world_after joins_A_B)))
  /\ In (1, Message (mkChatMessage "e3" "A" "hi" "t3" TMessage))
        (fanout (fun _ => true) (Message (mkChatMessage "e3" "A" "hi" "t3" TMessage))
           (hub (world_after joins_A_B))).
Proof.
  split; [reflexivity |].
  pose proof (@chat_message_delivery plain_host "idA" (mkUser "idA" "A" 1) "hi" "e3" "t3"
                (hub (world_after joins_A_B)) eq_refl) as W.
  cbv zeta in W. destruct W as [_ [_ [Wall _]]].
  split.
  - exact (Wall "idB" (mkUser "idB" "B" 2) eq_refl eq_refl).
  - exact (Wall "idA" (mkUser "idA" "A" 1) eq_refl eq_refl).
Defined.

(** X6 when the connection of A closes while B stays. *)
Lemma user_list_is_current_witness :
  Map_get "idA" (users (hub (world_after joins_A_B))) = Some (mkUser "idA" "A" 1)
  /\ exists before,
       outbox (handleUserDisconnect (H := plain_host) "idA" "e3" "t3"
                 (hub (world_after joins_A_B)))
       = outbox (hub (world_after joins_A_B)) ++ before
           ++ fanout (fun _ => true)
                (UserList (api_users (handleUserDisconnect (H := plain_host) "idA" "e3" "t3"
                                        (hub (world_after joins_A_B)))))
                (handleUserDisconnect (H := plain_host) "idA" "e3" "t3"
                   (hub (world_after joins_A_B))).
Proof.
  split; [reflexivity |].
  destruct (proj2 (@user_list_is_current plain_host 1 "idA" "A" "e3" "t3"
                     (hub (world_after joins_A_B)))
              (mkUser "idA" "A" 1) eq_refl) as [before [Wout _]].
  exists before. exact Wout.
Defined.

(** X7 when A joins on its open socket. *)
Lemma own_join_event_sent_twice_witness :
  is_open (hub (world_after connects_A)) 1 = true
  /\ exists before between after names,
       outbox (handleUserJoin (H := plain_host) 1 "idA" "A" "e1" "t1"
                 (hub (world_after connects_A)))
       = outbox (hub (world_after connects_A)) ++ before
           ++ [(1, Message (mkChatMessage "e1" "System" "A joined the chat" "t1" TSystem))]
           ++ between
           ++ [(1, Joined
                     (chatLog (hub (world_after connects_A))
                        ++ [mkChatMessage "e1" "System" "A joined the chat" "t1" TSystem])
                     names)]
           ++ after.
Proof.
  split; [reflexivity |].
  exact (@own_join_event_sent_twice plain_host 1 "idA" "A" "e1" "t1"
           (hub (world_after connects_A)) eq_refl).
Defined.





(** X12 on the answer "Bob" between Unicode spaces, and on a line of such
    spaces only. *)
Lemma client_sends_trimmed_text_witness :
  promptUsername padded_answer = Some (Join "Bob")
  /\ (exists name, Join "Bob" = Join name /\ name <> "" /\ name = trim padded_answer)
  /\ trimStart blank_line = ""
  /\ promptUsername blank_line = None
  /\ chatLine blank_line = Ignore.
Proof.
  split; [reflexivity |].
  split.
  - exact (proj1 (proj2 (proj2 (proj2 (client_sends_trimmed_text padded_answer))))
             (Join "Bob") eq_refl).
  - split; [reflexivity |].
    exact (proj2 (proj2 (proj2 (proj2 (proj2 (proj2
                    (client_sends_trimmed_text blank_line))))) eq_refl)).
Defined.

(** X13 on a path with a blank, after the command in capitals. *)
Lemma send_command_keeps_path_witness :
  has_space "/SEND" = false
  /\ toLowerCase "/SEND" = "/send"
  /\ handleCommand "/SEND my file.txt" = DoSendFile "my file.txt".
Proof.
  split; [reflexivity |]. split; [reflexivity |].
  exact (proj1 (send_command_keeps_path "/SEND" "my file.txt" eq_refl
                  (or_introl eq_refl))).
Defined.

(** X14 on the joins of A and B on a new server. *)
Lemma joins_fill_user_list_witness :
  api_users (join_all (H := plain_host) two_joins new_hub) = ["A"; "B"].
Proof.
  refine (proj1 (proj2 (@joins_fill_user_list plain_host two_joins new_hub _ _)) eq_refl).
  - repeat constructor; cbn; intuition discriminate.
  - intros j [<- | [<- | []]]; reflexivity.
Defined.


(** X16 on what B has been sent once A and B have joined. *)
Lemma delivery_follows_log_witness :
  run (H := plain_host) joins_A_B new_world = Some (world_after joins_A_B)
  /\ delivered 2 (outbox (hub (world_after joins_A_B)))
       `sublist_of` chatLog (hub (world_after joins_A_B)).
Proof.
  split; [reflexivity |].
  exact (@delivery_follows_log plain_host joins_A_B (world_after joins_A_B) 2 eq_refl).
Defined.

(** X17 when B speaks before it has joined. *)
Lemma unlogged_event_is_silent_witness :
  fire (H := plain_host) early_chat_from_B (world_after joins_A_connects_B)
  = Some (world_after (joins_A_connects_B ++ [early_chat_from_B]))
  /\ logs (H := plain_host) early_chat_from_B (world_after joins_A_connects_B) = false
  /\ outbox (hub (world_after (joins_A_connects_B ++ [early_chat_from_B])))
     = outbox (hub (world_after joins_A_connects_B)).
Proof.
  assert (fire (H := plain_host) early_chat_from_B (world_after joins_A_connects_B)
          = Some (world_after (joins_A_connects_B ++ [early_chat_from_B]))) as Hfire
    by (vm_compute; reflexivity).
  split; [exact Hfire |]. split; [reflexivity |].
  exact (proj2 (proj2 (proj2
           (@unlogged_event_is_silent plain_host early_chat_from_B
              (world_after joins_A_connects_B)
              (world_after (joins_A_connects_B ++ [early_chat_from_B]))
              Hfire eq_refl)))).
Defined.
